(** * Vertical image stitching with EXIF transfer: a model of [stitchImages]

    The service module of the repository exports one function,
    [stitchImages], which loads the uploaded files as images, scales them
    all to the width of the first one, draws them one below the other on a
    canvas, encodes the canvas as a JPEG data URL and tries to copy the EXIF
    block of the first file into the result.

    The function lives in a browser.  Everything it calls there is either a
    deterministic facility of the page (image decoding, canvas encoding,
    [FileReader], [fetch]), gathered in the record [Env], or part of the
    mutable state of the page (the global [window.piexif], the registry of
    object URLs, the console), gathered in the record [Browser].  The code
    is written in a state-and-exception monad over [Browser]; [await] is
    sequencing, a rejected promise is a thrown value.  Promises that are
    started together and awaited with [Promise.all] settle at the ticks that
    the page chooses ([settles_at]).

    Numbers are JavaScript Numbers, i.e. IEEE 754 binary64 values: they are
    modelled by the primitive floats of the kernel, which compute. *)

From Stdlib Require Import ZArith List Permutation String DecimalString DecimalNat Bool Lia.
From Stdlib Require Import Floats.
From Stdlib Require Import QArith Qround.
Import ListNotations.

Set Warnings "-inexact-float,-register-all".

Local Open Scope string_scope.
Local Open Scope list_scope.

(** ** JavaScript numbers *)

Module Js.

(** The Number a script reads from an [unsigned long] attribute such as
    [naturalWidth].  Exact for every value below [2^53]. *)
Definition number_of_Z (z : Z) : float :=
  if (z <? 0)%Z then (- PrimFloat.of_uint63 (Uint63.of_Z (- z)))%float
  else PrimFloat.of_uint63 (Uint63.of_Z z).

(** [Math.round]: the integral Number closest to [x]; of two equally close
    ones, the one closer to +infinity.  Zeros, infinities, NaN and values
    that are already integral are returned as they are. *)
Definition Math_round (x : float) : float :=
  match Prim2SF x with
  | S754_finite s m e =>
      if (0 <=? e)%Z then x
      else
        let d := (2 ^ (- e))%Z in
        let q := (Z.pos m / d)%Z in
        let r2 := (2 * (Z.pos m mod d))%Z in
        if s
        then (- number_of_Z (if (d <? r2)%Z then q + 1 else q))%float
        else number_of_Z (if (d <=? r2)%Z then q + 1 else q)
  | _ => x
  end.

(** WebIDL's conversion of a Number to [unsigned long] (no [Clamp], no
    [EnforceRange]): NaN and the infinities give 0, any other value is
    truncated toward zero and reduced modulo [2^32]. *)
Definition to_unsigned_long (x : float) : Z :=
  match Prim2SF x with
  | S754_finite s m e =>
      let n := if (0 <=? e)%Z then (Z.pos m * 2 ^ e)%Z
               else (Z.pos m / 2 ^ (- e))%Z in
      ((if s then - n else n) mod 2 ^ 32)%Z
  | _ => 0%Z
  end.

(** What a reflecting [unsigned long] attribute with a default keeps when
    it is set (HTML, "reflecting content attributes"): the value itself up
    to 2147483647, the default above. *)
Definition reflect_unsigned_long (default v : Z) : Z :=
  if (v <=? 2147483647)%Z then v else default.

(** Values returned by the metadata library, whose type is [any]. *)
Inductive value : Type :=
| Undefined
| Null
| Boolean (b : bool)
| Number (x : float)
| String (s : string)
| Object (properties : list (string * value)).

Definition typeof (v : value) : string :=
  match v with
  | Undefined => "undefined"
  | Null => "object"
  | Boolean _ => "boolean"
  | Number _ => "number"
  | String _ => "string"
  | Object _ => "object"
  end.

End Js.

(** ** Data of the page *)

(** A [File]: its MIME type and its bytes. *)
Record File : Type := { file_type : string; file_bytes : list Byte.byte }.

(** A [Blob] obtained from a response body. *)
Record Blob : Type := { blob_type : string; blob_bytes : list Byte.byte }.

(** A decoded image: its intrinsic size and its pixels (RGBA, row-major). *)
Record Bitmap : Type :=
  { bitmap_width : Z; bitmap_height : Z; bitmap_data : list Byte.byte }.

(** An [HTMLImageElement] whose [load] event has fired. *)
Record HTMLImageElement : Type := { src : string; decoded : Bitmap }.

Definition naturalWidth (img : HTMLImageElement) : float :=
  Js.number_of_Z (bitmap_width (decoded img)).

Definition naturalHeight (img : HTMLImageElement) : float :=
  Js.number_of_Z (bitmap_height (decoded img)).

(** The types of the repository. *)
Module UploadedImage.
Record t : Type :=
  { id : string; file : File; previewUrl : string; width : float; height : float }.
End UploadedImage.

Module StitchResult.
Record t : Type := { blob : Blob; url : string; width : float; height : float }.
End StitchResult.

(** *** The canvas

    A canvas is described by its size and by the drawing calls made on its
    2D context since it was last resized, oldest first: rasterisation is a
    deterministic function of these, so two canvases with equal descriptions
    hold the same pixels.  [DrawImage] is the general nine-argument form of
    [drawImage]: a source rectangle of the bitmap is scaled into a
    destination rectangle of the canvas. *)
Inductive CanvasOp : Type :=
| FillRect (fillStyle : string) (x y w h : float)
| DrawImage (image : Bitmap) (sx sy sw sh : float) (dx dy dw dh : float).

Record Canvas : Type :=
  { canvas_width : Z; canvas_height : Z; canvas_ops : list CanvasOp }.

(** [document.createElement('canvas')]: 300 by 150, transparent. *)
Definition createCanvas : Canvas :=
  {| canvas_width := 300; canvas_height := 150; canvas_ops := [] |}.

(** [canvas.width = x] and [canvas.height = x]: the Number is converted to
    [unsigned long], the attribute reflects it, and the bitmap is cleared. *)
Definition set_width (c : Canvas) (x : float) : Canvas :=
  {| canvas_width := Js.reflect_unsigned_long 300 (Js.to_unsigned_long x);
     canvas_height := canvas_height c;
     canvas_ops := [] |}.

Definition set_height (c : Canvas) (x : float) : Canvas :=
  {| canvas_width := canvas_width c;
     canvas_height := Js.reflect_unsigned_long 150 (Js.to_unsigned_long x);
     canvas_ops := [] |}.

(** A [CanvasRenderingContext2D] bound to its canvas. *)
Record Context2D : Type := { fillStyle : string; canvas : Canvas }.

Definition paint (ctx : Context2D) (op : CanvasOp) : Context2D :=
  {| fillStyle := fillStyle ctx;
     canvas := {| canvas_width := canvas_width (canvas ctx);
                  canvas_height := canvas_height (canvas ctx);
                  canvas_ops := canvas_ops (canvas ctx) ++ [op] |} |}.

Definition set_fillStyle (ctx : Context2D) (style : string) : Context2D :=
  {| fillStyle := style; canvas := canvas ctx |}.

Definition fillRect (ctx : Context2D) (x y w h : float) : Context2D :=
  paint ctx (FillRect (fillStyle ctx) x y w h).

(** The five-argument [drawImage(img, dx, dy, dw, dh)]: the source
    rectangle is the whole image. *)
Definition drawImage (ctx : Context2D) (img : HTMLImageElement) (dx dy dw dh : float)
  : Context2D :=
  paint ctx (DrawImage (decoded img) 0 0 (naturalWidth img) (naturalHeight img) dx dy dw dh).

(** *** Thrown values *)

(** [JsError m] is [new Error(m)], thrown by the code of the repository;
    [Rejection r] is a value supplied by the page: the [error] event of an
    image or of a [FileReader], the exception of a library call, the reason
    of a failed [fetch]. *)
Inductive Thrown : Type :=
| JsError (message : string)
| Rejection (reason : string).

(** *** The metadata library

    [window.piexif] has type [any]: each of the three functions the code
    calls either returns or throws. *)
Record Piexif : Type :=
  { piexif_load : string -> Thrown + Js.value;
    piexif_dump : Js.value -> Thrown + string;
    piexif_insert : string -> string -> Thrown + string }.

(** *** The facilities of the page *)
Record Env : Type :=
  { (* setting [img.src] to an object URL of the file: [load] or [error] *)
    decode : File -> Thrown + Bitmap;
    (* when images of these files are given their [src] one after the other,
       the tick at which the page fires [load] or [error] on the [i]-th *)
    settles_at : list File -> nat -> nat;
    (* whether [getContext('2d')] gives a context for this canvas *)
    getContext2d : Canvas -> bool;
    (* [canvas.toDataURL(type, quality)] *)
    toDataURL : Canvas -> string -> float -> string;
    (* [FileReader.readAsDataURL]: [load] or [error] *)
    readAsDataURL : File -> Thrown + string;
    (* [fetch(url)] followed by [blob()] *)
    fetchBlob : string -> Thrown + Blob }.

(** *** What a call leaves behind *)

Inductive Level : Type := Log | Warn | Err.

Inductive Event : Type :=
| CreateObjectURL (u : string)
| RevokeObjectURL (u : string)
| Decode (f : File)
| GetContext (c : Canvas)
| Encode (c : Canvas) (type : string) (quality : float)
| ReadFile (f : File)
| PiexifLoad (data : string)
| PiexifDump (exif : Js.value)
| PiexifInsert (exifBytes : string) (jpeg : string)
| Console (l : Level) (message : string) (detail : option Thrown)
| Fetch (u : string).

(** The mutable state of the page: the global [window.piexif] (absent when
    the script was not loaded), the number of object URLs minted so far, and
    the calls made so far, oldest first. *)
Record Browser : Type :=
  { window_piexif : option Piexif;
    minted : nat;
    trace : list Event }.

(** ** The monad of the page *)

Inductive Outcome (A : Type) : Type :=
| Returned (a : A)
| Threw (e : Thrown).
Arguments Returned {A} a.
Arguments Threw {A} e.

Definition M (A : Type) : Type := Browser -> Outcome A * Browser.

Definition ret {A} (a : A) : M A := fun st => (Returned a, st).

Definition throw {A} (e : Thrown) : M A := fun st => (Threw e, st).

Definition bind {A B} (m : M A) (k : A -> M B) : M B :=
  fun st =>
    match m st with
    | (Returned a, st') => k a st'
    | (Threw e, st') => (Threw e, st')
    end.

(** [try { m } catch (e) { handler e }]: what [m] did to the page stays. *)
Definition try_catch {A} (m : M A) (handler : Thrown -> M A) : M A :=
  fun st =>
    match m st with
    | (Returned a, st') => (Returned a, st')
    | (Threw e, st') => handler e st'
    end.

Declare Scope js_scope.
Delimit Scope js_scope with js.
Notation "x <- m ;; k" := (bind m (fun x => k))
  (at level 61, m at next level, right associativity) : js_scope.
Notation "m ;; k" := (bind m (fun _ => k))
  (at level 61, right associativity) : js_scope.
Local Open Scope js_scope.

Definition emit (e : Event) : M unit :=
  fun st =>
    (Returned tt,
     {| window_piexif := window_piexif st;
        minted := minted st;
        trace := trace st ++ [e] |}).

(** Awaiting a promise that the page settles: fulfilled or rejected. *)
Definition settle {A} (r : Thrown + A) : M A :=
  match r with
  | inl e => throw e
  | inr a => ret a
  end.

(** [URL.createObjectURL]: a URL that was never handed out before. *)
Definition createObjectURL : M string :=
  fun st =>
    let u := String.append "blob:" (NilEmpty.string_of_uint (Nat.to_uint (minted st))) in
    (Returned u,
     {| window_piexif := window_piexif st;
        minted := S (minted st);
        trace := trace st ++ [CreateObjectURL u] |}).

Definition revokeObjectURL (u : string) : M unit := emit (RevokeObjectURL u).

Definition console (l : Level) (message : string) (detail : option Thrown) : M unit :=
  emit (Console l message detail).

(** Reading the global [window.piexif]. *)
Definition get_piexif : M (option Piexif) :=
  fun st => (Returned (window_piexif st), st).

(** Promises that were all started when their array was built: every one
    of them runs, whatever becomes of the others, and leaves its value or
    its rejection. *)
Fixpoint settled {A} (ps : list (M A)) : Browser -> list (Thrown + A) * Browser :=
  match ps with
  | [] => fun st => ([], st)
  | p :: rest =>
      fun st =>
        let (o, st1) := p st in
        let (rs, st2) := settled rest st1 in
        (match o with
         | Returned a => inr a
         | Threw e => inl e
         end :: rs, st2)
  end.

(** What [Promise.all] makes of promises that settle as [rs], the one of
    index [i + k] at the tick [when (i + k)]: the array of the values when
    none is rejected; otherwise the rejection that comes first in time,
    with its tick (of two rejections at the same tick, the one of the
    promise that comes first in the array). *)
Fixpoint race {A} (when : nat -> nat) (i : nat) (rs : list (Thrown + A))
  : (nat * Thrown) + list A :=
  match rs with
  | [] => inr []
  | r :: rest =>
      match r, race when (S i) rest with
      | inl e, inl (t, e') => if (t <? when i)%nat then inl (t, e') else inl (when i, e)
      | inl e, inr _ => inl (when i, e)
      | inr _, inl first => inl first
      | inr a, inr l => inr (a :: l)
      end
  end.

(** [await Promise.all(ps)], for promises of which the [i]-th settles at
    the tick [when i]. *)
Definition promise_all {A} (when : nat -> nat) (ps : list (M A)) : M (list A) :=
  fun st =>
    let (rs, st') := settled ps st in
    (match race when 0 rs with
     | inl (_, e) => Threw e
     | inr l => Returned l
     end, st').

(** [array.forEach] with a callback that acts on the page. *)
Fixpoint forEach {A} (l : list A) (f : A -> M unit) : M unit :=
  match l with
  | [] => ret tt
  | a :: rest => f a ;; forEach rest f
  end.

(** ** The service *)

Section Service.

Variable env : Env.

(** [loadImage]: an object URL is minted for the file and becomes the
    [src] of a fresh image; the promise resolves with the image on [load]
    and is rejected on [error]. *)
Definition loadImage (file : File) : M HTMLImageElement :=
  url <- createObjectURL ;;
  emit (Decode file) ;;
  bitmap <- settle (decode env file) ;;
  ret {| src := url; decoded := bitmap |}.

(** [readFileAsDataURL]. *)
Definition readFileAsDataURL (file : File) : M string :=
  emit (ReadFile file) ;;
  settle (readAsDataURL env file).

(** The elements of [imageDrawData]. *)
Record DrawData : Type :=
  { img : HTMLImageElement; scaledHeight : float; scaleFactor : float }.

(** Step 2: the [map] over [loadedImages] that builds [imageDrawData]
    and adds every scaled height to the variable [totalHeight]; the
    function returns the array and the final value of the variable. *)
Fixpoint calculateDrawData (targetWidth : float) (loadedImages : list HTMLImageElement)
    (totalHeight : float) : list DrawData * float :=
  match loadedImages with
  | [] => ([], totalHeight)
  | img :: rest =>
      let scaleFactor := (targetWidth / naturalWidth img)%float in
      let scaledHeight := (naturalHeight img * scaleFactor)%float in
      let totalHeight := (totalHeight + scaledHeight)%float in
      let (data, total) := calculateDrawData targetWidth rest totalHeight in
      ({| img := img; scaledHeight := scaledHeight; scaleFactor := scaleFactor |} :: data,
       total)
  end.

(** Step 4: the [forEach] over [imageDrawData] that draws every image and
    advances the variable [currentY]. *)
Fixpoint drawImages (ctx : Context2D) (targetWidth : float) (imageDrawData : list DrawData)
    (currentY : float) : Context2D * float :=
  match imageDrawData with
  | [] => (ctx, currentY)
  | d :: rest =>
      let ctx := drawImage ctx (img d) 0 currentY targetWidth (scaledHeight d) in
      drawImages ctx targetWidth rest (currentY + scaledHeight d)%float
  end.

(** Step 3 and 4 on a context that was obtained: white background, then
    the images. *)
Definition paintCanvas (ctx : Context2D) (targetWidth : float)
    (imageDrawData : list DrawData) : Canvas :=
  let ctx := set_fillStyle ctx "#FFFFFF" in
  let ctx := fillRect ctx 0 0 (Js.number_of_Z (canvas_width (canvas ctx)))
               (Js.number_of_Z (canvas_height (canvas ctx))) in
  canvas (fst (drawImages ctx targetWidth imageDrawData 0)).

(** Step 6: the EXIF block of the first file.  [finalDataUrl] starts as
    [stitchedDataUrl] and is assigned once, by the statement that follows
    the last call that can throw; the value returned here is the value of
    the variable after the outer [try]. *)
Definition transferExif (uploadedImages : list UploadedImage.t) (stitchedDataUrl : string)
  : M string :=
  try_catch
    (first <- settle (match uploadedImages with
                      | u :: _ => inr u
                      | [] => inl (Rejection "TypeError")
                      end) ;;
     firstImageDataUrl <- readFileAsDataURL (UploadedImage.file first) ;;
     piexif <- get_piexif ;;
     match piexif with
     | Some piexif =>
         try_catch
           (emit (PiexifLoad firstImageDataUrl) ;;
            exifObj <- settle (piexif_load piexif firstImageDataUrl) ;;
            if Js.typeof exifObj =? "object" then
              emit (PiexifDump exifObj) ;;
              exifBytes <- settle (piexif_dump piexif exifObj) ;;
              emit (PiexifInsert exifBytes stitchedDataUrl) ;;
              finalDataUrl <- settle (piexif_insert piexif exifBytes stitchedDataUrl) ;;
              console Log "EXIF data successfully transferred." None ;;
              ret finalDataUrl
            else ret stitchedDataUrl)
           (fun exifError =>
              console Warn
                "Could not extract or insert EXIF data (image might be PNG or have no EXIF):"
                (Some exifError) ;;
              ret stitchedDataUrl)
     | None =>
         console Warn "Piexifjs not found. EXIF data will not be preserved." None ;;
         ret stitchedDataUrl
     end)
    (fun err =>
       console Err "Error handling EXIF:" (Some err) ;;
       ret stitchedDataUrl).

(** The main function: stitch the images vertically. *)
Definition stitchImages (uploadedImages : list UploadedImage.t) : M StitchResult.t :=
  if (List.length uploadedImages =? 0)%nat then throw (JsError "No images to stitch")
  else
    (* 1. load all images *)
    loadedImages <- promise_all (settles_at env (map UploadedImage.file uploadedImages))
                                (map (fun u => loadImage (UploadedImage.file u))
                                     uploadedImages) ;;
    (* 2. dimensions: everything is scaled to the width of the first image *)
    first <- settle (match loadedImages with
                     | i :: _ => inr i
                     | [] => inl (Rejection "TypeError")
                     end) ;;
    let targetWidth := naturalWidth first in
    let (imageDrawData, totalHeight) := calculateDrawData targetWidth loadedImages 0 in
    (* 3. canvas *)
    let canvas := createCanvas in
    let canvas := set_width canvas targetWidth in
    let canvas := set_height canvas totalHeight in
    emit (GetContext canvas) ;;
    if negb (getContext2d env canvas) then throw (JsError "Could not get canvas context")
    else
      let ctx := {| fillStyle := "#000000"; canvas := canvas |} in
      (* white background, 4. the images *)
      let canvas := paintCanvas ctx targetWidth imageDrawData in
      (* 5. JPEG data URL, quality 1.0 *)
      emit (Encode canvas "image/jpeg" 1) ;;
      let stitchedDataUrl := toDataURL env canvas "image/jpeg" 1 in
      (* 6. EXIF *)
      finalDataUrl <- transferExif uploadedImages stitchedDataUrl ;;
      (* 7. blob and its URL *)
      emit (Fetch finalDataUrl) ;;
      blob <- settle (fetchBlob env finalDataUrl) ;;
      url <- createObjectURL ;;
      forEach loadedImages (fun img => revokeObjectURL (src img)) ;;
      ret {| StitchResult.blob := blob;
             StitchResult.url := url;
             StitchResult.width := targetWidth;
             StitchResult.height := Js.Math_round totalHeight |}.

End Service.

(** ** Closed forms of the two loops *)

(** The scaled height of one bitmap for a target width, computed as the code
    does: the scale factor first, then the product. *)
Definition scaled (targetWidth : float) (b : Bitmap) : float :=
  (Js.number_of_Z (bitmap_height b)
   * (targetWidth / Js.number_of_Z (bitmap_width b)))%float.

(** The sum of a list of Numbers, accumulated from the left. *)
Definition sum_from (start : float) (l : list float) : float :=
  fold_left PrimFloat.add l start.

(** The target width of a non-empty list of bitmaps: that of its head. *)
Definition target_width (bitmaps : list Bitmap) : float :=
  match bitmaps with
  | b :: _ => Js.number_of_Z (bitmap_width b)
  | [] => 0
  end.

Definition total_height (bitmaps : list Bitmap) : float :=
  sum_from 0 (map (scaled (target_width bitmaps)) bitmaps).

(** The drawing calls of the images, the first of them at [y]. *)
Fixpoint draws (targetWidth : float) (bitmaps : list Bitmap) (y : float) : list CanvasOp :=
  match bitmaps with
  | [] => []
  | b :: rest =>
      DrawImage b 0 0 (Js.number_of_Z (bitmap_width b)) (Js.number_of_Z (bitmap_height b))
                0 y targetWidth (scaled targetWidth b)
      :: draws targetWidth rest (y + scaled targetWidth b)%float
  end.

(** The canvas as it is when the context is asked for, and as it is when it
    is encoded. *)
Definition planned_canvas (bitmaps : list Bitmap) : Canvas :=
  set_height (set_width createCanvas (target_width bitmaps)) (total_height bitmaps).

Definition stitched_canvas (bitmaps : list Bitmap) : Canvas :=
  let c := planned_canvas bitmaps in
  {| canvas_width := canvas_width c;
     canvas_height := canvas_height c;
     canvas_ops :=
       FillRect "#FFFFFF" 0 0 (Js.number_of_Z (canvas_width c))
                (Js.number_of_Z (canvas_height c))
       :: draws (target_width bitmaps) bitmaps 0 |}.

(** The canvases handed to the encoder among some events. *)
Fixpoint encoded (events : list Event) : list Canvas :=
  match events with
  | [] => []
  | Encode c _ _ :: rest => c :: encoded rest
  | _ :: rest => encoded rest
  end.

(** The calls of the metadata library that serialise or splice a block. *)
Fixpoint serialised (events : list Event) : list Event :=
  match events with
  | [] => []
  | PiexifDump v :: rest => PiexifDump v :: serialised rest
  | PiexifInsert b j :: rest => PiexifInsert b j :: serialised rest
  | _ :: rest => serialised rest
  end.

(** ** Notions used in the statements *)

(** Decoding a list of files together: all the bitmaps, or the rejection
    of the file whose [error] event the page fires first. *)
Definition decodeAll (env : Env) (files : list File) : Thrown + list Bitmap :=
  match race (settles_at env files) 0 (map (decode env) files) with
  | inl (_, e) => inl e
  | inr bitmaps => inr bitmaps
  end.

(** A run of [m] from [st]: its outcome, the state it leaves and the
    events it appended.  It does not touch [window.piexif]. *)
Definition runs {A} (m : M A) (st : Browser) (o : Outcome A) (st' : Browser)
    (events : list Event) : Prop :=
  m st = (o, st')
  /\ window_piexif st' = window_piexif st
  /\ trace st' = trace st ++ events.

(** The ways in which the EXIF step can fail for a page whose
    [window.piexif] is [piexif]: the first file cannot be read, the
    library is absent, [load] throws, [dump] throws on the object that
    [load] returned, [insert] throws. *)
Inductive MetadataFailure (env : Env) (piexif : option Piexif) (file : File)
    (stitchedDataUrl : string) : Prop :=
| FileUnreadable (e : Thrown) :
    readAsDataURL env file = inl e ->
    MetadataFailure env piexif file stitchedDataUrl
| CodecAbsent :
    piexif = None ->
    MetadataFailure env piexif file stitchedDataUrl
| ExtractionFails (p : Piexif) (data : string) (e : Thrown) :
    piexif = Some p ->
    readAsDataURL env file = inr data ->
    piexif_load p data = inl e ->
    MetadataFailure env piexif file stitchedDataUrl
| MalformedTagSet (p : Piexif) (data : string) (exifObj : Js.value) (e : Thrown) :
    piexif = Some p ->
    readAsDataURL env file = inr data ->
    piexif_load p data = inr exifObj ->
    Js.typeof exifObj = "object" ->
    piexif_dump p exifObj = inl e ->
    MetadataFailure env piexif file stitchedDataUrl
| InsertionFails (p : Piexif) (data : string) (exifObj : Js.value) (exifBytes : string)
    (e : Thrown) :
    piexif = Some p ->
    readAsDataURL env file = inr data ->
    piexif_load p data = inr exifObj ->
    Js.typeof exifObj = "object" ->
    piexif_dump p exifObj = inr exifBytes ->
    piexif_insert p exifBytes stitchedDataUrl = inl e ->
    MetadataFailure env piexif file stitchedDataUrl.



(** The data URL that the stitched canvas is encoded to. *)
Definition stitched_url (env : Env) (bitmaps : list Bitmap) : string :=
  toDataURL env (stitched_canvas bitmaps) "image/jpeg" 1.

(** The error of an empty input, called [EmptyInputError] in the design. *)
Definition EmptyInputError : Thrown := JsError "No images to stitch".

(** The height as the design words it: the sum over the images of
    [intrinsicHeight * targetWidth / intrinsicWidth], taken in exact
    arithmetic, and rounded to the nearest integer (halves upward, as
    [Math.round] does). *)
Definition exact_height (bitmaps : list Bitmap) : Z :=
  let targetWidth := match bitmaps with b :: _ => bitmap_width b | [] => 0%Z end in
  Qfloor (Qplus (fold_right Qplus 0%Q
                   (map (fun b => (inject_Z (bitmap_height b * targetWidth)
                                   / inject_Z (bitmap_width b))%Q) bitmaps))
                (1 # 2)%Q).

(** ** A page to run the service on *)

Module Sample.

(** Files are told apart by their single byte; the page decodes nine of
    them, with the intrinsic sizes below, whatever their MIME type, and
    settles the loads in the order in which they were started. *)
Definition jpeg (b : Byte.byte) : File :=
  {| file_type := "image/jpeg"; file_bytes := [b] |}.

Definition png (b : Byte.byte) : File :=
  {| file_type := "image/png"; file_bytes := [b] |}.

Definition size_of (f : File) : option (Z * Z) :=
  match file_bytes f with
  | [Byte.x01] => Some (800, 600)%Z
  | [Byte.x02] => Some (400, 400)%Z
  | [Byte.x03] => Some (1600, 400)%Z
  | [Byte.x04] => Some (3, 2)%Z
  | [Byte.x05] => Some (22, 99)%Z
  | [Byte.x06] => Some (0, 10)%Z
  | [Byte.x07] => Some (2000000000, 2000000000)%Z
| [Byte.x08] => Some (2, 1)%Z
| [Byte.x09] => Some (4, 3)%Z
  | _ => None
  end.

Definition bitmap_of (f : File) (w h : Z) : Bitmap :=
  {| bitmap_width := w; bitmap_height := h; bitmap_data := file_bytes f |}.

Definition page : Env :=
  {| decode := fun f =>
       match size_of f with
       | Some (w, h) => inr (bitmap_of f w h)
       | None => inl (Rejection "error")
       end;
     settles_at := fun _ i => i;
     getContext2d := fun _ => true;
     toDataURL := fun _ _ _ => "data:image/jpeg;base64,STITCHED";
     readAsDataURL := fun f =>
       inr (String.append "data:" (String.append (file_type f) ";base64,SOURCE"));
     fetchBlob := fun u =>
       inr {| blob_type := "image/jpeg"; blob_bytes := list_byte_of_string u |} |}.

(** The same page when it settles the loads that were started together in
    the reverse order, and tells in the [error] event the MIME type of the
    file that did not decode. *)
Definition reversed : Env :=
  {| decode := fun f =>
       match size_of f with
       | Some (w, h) => inr (bitmap_of f w h)
       | None => inl (Rejection (file_type f))
       end;
     settles_at := fun files i => (List.length files - i)%nat;
     getContext2d := getContext2d page;
     toDataURL := toDataURL page;
     readAsDataURL := readAsDataURL page;
     fetchBlob := fetchBlob page |}.

(** A metadata library in the manner of piexifjs: [load] accepts JPEG data
    only, [insert] puts the segment in front of the image data. *)
Definition tags : Js.value :=
  Js.Object [("0th", Js.Object [("271", Js.String "Camera")]);
             ("Exif", Js.Object []); ("GPS", Js.Object [])].

Definition no_tags : Js.value :=
  Js.Object [("0th", Js.Object []); ("Exif", Js.Object []); ("GPS", Js.Object []);
             ("Interop", Js.Object []); ("1st", Js.Object []); ("thumbnail", Js.Null)].

Definition library (found : Js.value) : Piexif :=
  {| piexif_load := fun data =>
       if String.prefix "data:image/jpeg;base64," data then inr found
       else inl (Rejection "'load' gots invalid file data.");
     piexif_dump := fun _ => inr "Exif";
     piexif_insert := fun exifBytes jpeg =>
       inr (String.append jpeg (String.append "+" exifBytes)) |}.

Definition fresh (piexif : option Piexif) : Browser :=
  {| window_piexif := piexif; minted := 0; trace := [] |}.

Definition upload (name : string) (f : File) : UploadedImage.t :=
  {| UploadedImage.id := name;
     UploadedImage.file := f;
     UploadedImage.previewUrl := String.append "blob:preview-" name;
     UploadedImage.width := 0;
     UploadedImage.height := 0 |}.

Definition A := upload "a" (jpeg Byte.x01).
Definition B := upload "b" (jpeg Byte.x02).
Definition C := upload "c" (jpeg Byte.x03).

End Sample.

(** ** Object URLs *)

(** The [k]-th object URL that the page hands out. *)
Definition blob_url (k : nat) : string :=
  String.append "blob:" (NilEmpty.string_of_uint (Nat.to_uint k)).

(** The calls to [URL.createObjectURL] and [URL.revokeObjectURL] among some
    events, in order. *)
Fixpoint url_events (events : list Event) : list Event :=
  match events with
  | [] => []
  | CreateObjectURL u :: rest => CreateObjectURL u :: url_events rest
  | RevokeObjectURL u :: rest => RevokeObjectURL u :: url_events rest
  | _ :: rest => url_events rest
  end.

(** Whether [u] is a live object URL after some events, given whether it
    was live before: minted and not revoked since. *)
Fixpoint live_after (events : list Event) (u : string) (alive : bool) : bool :=
  match events with
  | [] => alive
  | CreateObjectURL v :: rest => live_after rest u (alive || (v =? u))
  | RevokeObjectURL v :: rest => live_after rest u (alive && negb (v =? u))
  | _ :: rest => live_after rest u alive
  end.

Definition live (events : list Event) (u : string) : bool := live_after events u false.

(** The files handed to the [FileReader] among some events. *)
Fixpoint files_read (events : list Event) : list File :=
  match events with
  | [] => []
  | ReadFile f :: rest => f :: files_read rest
  | _ :: rest => files_read rest
  end.

(** What loading [files] appends to the trace of a page that has minted [m]
    object URLs: for every file, in order, a fresh URL and the request to
    decode the file. *)
Fixpoint load_events (m : nat) (files : list File) : list Event :=
  match files with
  | [] => []
  | f :: rest => CreateObjectURL (blob_url m) :: Decode f :: load_events (S m) rest
  end.

(** The object URLs numbered [m], [m + 1], ..., [m + n - 1]. *)
Fixpoint blob_urls (m n : nat) : list string :=
  match n with
  | O => []
  | S n' => blob_url m :: blob_urls (S m) n'
  end.

(** The images that loading gives for [bitmaps] on a page that has minted
    [m] object URLs. *)
Fixpoint loaded (m : nat) (bitmaps : list Bitmap) : list HTMLImageElement :=
  match bitmaps with
  | [] => []
  | b :: rest => {| src := blob_url m; decoded := b |} :: loaded (S m) rest
  end.

(** What the loads of [files] settle as on a page that has minted [m]
    object URLs: the image, or the reason of the [error] event. *)
Fixpoint loads (env : Env) (m : nat) (files : list File)
  : list (Thrown + HTMLImageElement) :=
  match files with
  | [] => []
  | f :: rest =>
      match decode env f with
      | inl e => inl e
      | inr b => inr {| src := blob_url m; decoded := b |}
      end :: loads env (S m) rest
  end.

(** The page after [k] more object URLs were minted and [events] happened. *)
Definition advance (st : Browser) (k : nat) (events : list Event) : Browser :=
  {| window_piexif := window_piexif st;
     minted := minted st + k;
     trace := trace st ++ events |}.

(** The page after [events] happened. *)
Definition logged (st : Browser) (events : list Event) : Browser :=
  {| window_piexif := window_piexif st;
     minted := minted st;
     trace := trace st ++ events |}.

(** ** The page: the component [App] and its [ImageUploader] *)

Module App.

(** The state of the component. *)
Record State : Type :=
  { images : list UploadedImage.t;
    isProcessing : bool;
    result : option StitchResult.t }.

(** The first render: [useState([])], [useState(false)], [useState(null)]. *)
Definition initial : State :=
  {| images := []; isProcessing := false; result := None |}.

End App.

(** What the handlers can reach: the state of the component, the page of the
    service, the number of calls to [Math.random] so far, the messages shown
    by [alert], the callbacks that [setTimeout] holds (each with the [images]
    it closed over, first to fire first), the clicks made on download links
    ([href] and [download]), and the state of the uploader: [isDragging] and
    the value of its file input. *)
Record Page : Type :=
  { app : App.State;
    browser : Browser;
    randoms : nat;
    alerts : list string;
    timers : list (list UploadedImage.t);
    downloads : list (string * string);
    isDragging : bool;
    inputValue : string }.

(** The facilities of the page, completed: [random_id n] is what the [n]-th
    evaluation of [Math.random().toString(36).substr(2, 9)] gives. *)
Record Host : Type :=
  { host_env : Env;
    random_id : nat -> string }.

Definition P (A : Type) : Type := Page -> Outcome A * Page.

Definition pret {A} (a : A) : P A := fun page => (Returned a, page).

Definition pbind {A B} (m : P A) (k : A -> P B) : P B :=
  fun page =>
    match m page with
    | (Returned a, page') => k a page'
    | (Threw e, page') => (Threw e, page')
    end.

Definition ptry_catch {A} (m : P A) (handler : Thrown -> P A) : P A :=
  fun page =>
    match m page with
    | (Returned a, page') => (Returned a, page')
    | (Threw e, page') => handler e page'
    end.

(** [try { m } finally { after }]. *)
Definition pfinally {A} (m : P A) (after : P unit) : P A :=
  fun page =>
    match m page with
    | (o, page') =>
        match after page' with
        | (Returned _, page'') => (o, page'')
        | (Threw e, page'') => (Threw e, page'')
        end
    end.

Declare Scope page_scope.
Delimit Scope page_scope with page.
Notation "x <- m ;; k" := (pbind m (fun x => k))
  (at level 61, m at next level, right associativity) : page_scope.
Notation "m ;; k" := (pbind m (fun _ => k))
  (at level 61, right associativity) : page_scope.

Definition with_app (page : Page) (s : App.State) : Page :=
  {| app := s; browser := browser page; randoms := randoms page; alerts := alerts page;
     timers := timers page; downloads := downloads page; isDragging := isDragging page;
     inputValue := inputValue page |}.

Definition with_browser (page : Page) (b : Browser) : Page :=
  {| app := app page; browser := b; randoms := randoms page; alerts := alerts page;
     timers := timers page; downloads := downloads page; isDragging := isDragging page;
     inputValue := inputValue page |}.

(** A call of the service or of the URL registry, on the page. *)
Definition lift {A} (m : M A) : P A :=
  fun page => let (o, b) := m (browser page) in (o, with_browser page b).

Definition get_images : P (list UploadedImage.t) :=
  fun page => (Returned (App.images (app page)), page).

Definition get_result : P (option StitchResult.t) :=
  fun page => (Returned (App.result (app page)), page).

Definition setImages (l : list UploadedImage.t) : P unit :=
  fun page =>
    (Returned tt,
     with_app page {| App.images := l;
                      App.isProcessing := App.isProcessing (app page);
                      App.result := App.result (app page) |}).

Definition setResult (r : option StitchResult.t) : P unit :=
  fun page =>
    (Returned tt,
     with_app page {| App.images := App.images (app page);
                      App.isProcessing := App.isProcessing (app page);
                      App.result := r |}).

Definition setIsProcessing (b : bool) : P unit :=
  fun page =>
    (Returned tt,
     with_app page {| App.images := App.images (app page);
                      App.isProcessing := b;
                      App.result := App.result (app page) |}).

Definition setIsDragging (b : bool) : P unit :=
  fun page =>
    (Returned tt,
     {| app := app page; browser := browser page; randoms := randoms page;
        alerts := alerts page; timers := timers page; downloads := downloads page;
        isDragging := b; inputValue := inputValue page |}).

Definition setInputValue (v : string) : P unit :=
  fun page =>
    (Returned tt,
     {| app := app page; browser := browser page; randoms := randoms page;
        alerts := alerts page; timers := timers page; downloads := downloads page;
        isDragging := isDragging page; inputValue := v |}).

Definition alert (message : string) : P unit :=
  fun page =>
    (Returned tt,
     {| app := app page; browser := browser page; randoms := randoms page;
        alerts := alerts page ++ [message]; timers := timers page;
        downloads := downloads page; isDragging := isDragging page;
        inputValue := inputValue page |}).

(** [setTimeout(callback, 100)] for a callback that closed over [job]. *)
Definition setTimeout (job : list UploadedImage.t) : P unit :=
  fun page =>
    (Returned tt,
     {| app := app page; browser := browser page; randoms := randoms page;
        alerts := alerts page; timers := timers page ++ [job];
        downloads := downloads page; isDragging := isDragging page;
        inputValue := inputValue page |}).

(** A click on a link that was given [href] and [download]. *)
Definition clickLink (href download : string) : P unit :=
  fun page =>
    (Returned tt,
     {| app := app page; browser := browser page; randoms := randoms page;
        alerts := alerts page; timers := timers page;
        downloads := downloads page ++ [(href, download)];
        isDragging := isDragging page; inputValue := inputValue page |}).

Fixpoint pforEach {A} (l : list A) (f : A -> P unit) : P unit :=
  match l with
  | [] => pret tt
  | a :: rest => pbind (f a) (fun _ => pforEach rest f)
  end.

(** [array.map] with a callback that acts on the page. *)
Fixpoint pmap {A B} (f : A -> P B) (l : list A) : P (list B) :=
  match l with
  | [] => pret []
  | a :: rest => pbind (f a) (fun b => pbind (pmap f rest) (fun bs => pret (b :: bs)))
  end.

(** *** JavaScript arrays

    An array whose entries may be [undefined] ([None]); reading outside the
    array gives [undefined], writing outside extends it. *)
Definition array_get {A} (a : list (option A)) (i : nat) : option A :=
  match nth_error a i with
  | Some x => x
  | None => None
  end.

Definition array_set {A} (a : list (option A)) (i : nat) (v : option A) : list (option A) :=
  if (i <? List.length a)%nat then firstn i a ++ v :: skipn (S i) a
  else a ++ repeat None (i - List.length a) ++ [v].

(** The array as a list of images, when none of its entries is [undefined]. *)
Fixpoint defined {A} (a : list (option A)) : option (list A) :=
  match a with
  | [] => Some []
  | Some x :: rest =>
      match defined rest with
      | Some l => Some (x :: l)
      | None => None
      end
  | None :: _ => None
  end.

Section Component.

Variable host : Host.

Local Open Scope page_scope.

(** [Math.random().toString(36).substr(2, 9)]. *)
Definition randomId : P string :=
  fun page =>
    (Returned (random_id host (randoms page)),
     {| app := app page; browser := browser page; randoms := S (randoms page);
        alerts := alerts page; timers := timers page; downloads := downloads page;
        isDragging := isDragging page; inputValue := inputValue page |}).

(** *** App.tsx *)

Definition handleFilesSelected (files : list File) : P unit :=
  newImages <- pmap (fun file =>
                       id <- randomId ;;
                       previewUrl <- lift createObjectURL ;;
                       pret {| UploadedImage.id := id;
                               UploadedImage.file := file;
                               UploadedImage.previewUrl := previewUrl;
                               UploadedImage.width := 0;
                               UploadedImage.height := 0 |})
                    files ;;
  prev <- get_images ;;
  setImages (prev ++ newImages) ;;
  setResult None.

Definition removeImage (id : string) : P unit :=
  prev <- get_images ;;
  match find (fun i => UploadedImage.id i =? id) prev with
  | Some img => lift (revokeObjectURL (UploadedImage.previewUrl img))
  | None => pret tt
  end ;;
  setImages (filter (fun i => negb (UploadedImage.id i =? id)) prev) ;;
  setResult None.

Inductive Direction : Type := up | down.

(** The array that [moveImage] hands to [setImages], or [None] when it
    returns at its first test.  The swap is the destructuring assignment
    [[a[index], a[targetIndex]] = [a[targetIndex], a[index]]]: both entries
    are read, then [a[index]] is written, then [a[targetIndex]]. *)
Definition movedImages (images : list UploadedImage.t) (index : nat) (direction : Direction)
  : option (list (option UploadedImage.t)) :=
  if match direction with
     | up => (index =? 0)%nat
     | down => (S index =? List.length images)%nat
     end
  then None
  else
    let newImages := map Some images in
    let targetIndex := match direction with
                       | up => (index - 1)%nat
                       | down => (index + 1)%nat
                       end in
    let fromTarget := array_get newImages targetIndex in
    let fromIndex := array_get newImages index in
    let newImages := array_set newImages index fromTarget in
    let newImages := array_set newImages targetIndex fromIndex in
    Some newImages.

(** [moveImage]: after its first test, [setImages(newImages)] and
    [setResult(null)].  For the index of a row, [newImages] is a list of
    images, and the value is the page after the two calls ([inl]).  For an
    index that is no row, [newImages] holds an [undefined] entry and is no
    value of [App.images]: the value is that array ([inr]), which the code
    stores as it is, clearing the result; the state it leaves is none that
    [Page] describes. *)
Definition moveImage (index : nat) (direction : Direction) (page : Page)
  : (Outcome unit * Page) + list (option UploadedImage.t) :=
  match movedImages (App.images (app page)) index direction with
  | None => inl (Returned tt, page)
  | Some newImages =>
      match defined newImages with
      | Some l => inl ((setImages l ;; setResult None) page)
      | None => inr newImages
      end
  end.

(** A click on an arrow of the row [index].  The arrows are rendered with
    the rows, one pair for every entry of [images]: for an index that is no
    row there is nothing to click, and the page stays as it is. *)
Definition clickArrow (index : nat) (direction : Direction) : P unit :=
  fun page =>
    match moveImage index direction page with
    | inl after => after
    | inr _ => (Returned tt, page)
    end.

(** The callback that [handleStitch] gives to [setTimeout]; [images] is the
    list that the handler closed over. *)
Definition stitchJob (images : list UploadedImage.t) : P unit :=
  pfinally
    (ptry_catch
       (res <- lift (stitchImages (host_env host) images) ;;
        setResult (Some res))
       (fun error =>
          lift (console Err "" (Some error)) ;;
          alert "Failed to stitch images. Please try again."))
    (setIsProcessing false).

Definition handleStitch : P unit :=
  images <- get_images ;;
  if (List.length images =? 0)%nat then pret tt
  else
    setIsProcessing true ;;
    setTimeout images.

(** The timer that was set first fires. *)
Definition timerFires : P unit :=
  fun page =>
    match timers page with
    | [] => (Returned tt, page)
    | job :: rest =>
        stitchJob job
          {| app := app page; browser := browser page; randoms := randoms page;
             alerts := alerts page; timers := rest; downloads := downloads page;
             isDragging := isDragging page; inputValue := inputValue page |}
    end.

(** [now] is [new Date().getTime()]. *)
Definition handleDownload (now : N) : P unit :=
  result <- get_result ;;
  match result with
  | None => pret tt
  | Some r =>
      clickLink (StitchResult.url r)
        (String.append "stitched-image-"
           (String.append (NilEmpty.string_of_uint (N.to_uint now)) ".jpg"))
  end.

(** [confirmed] is the answer to [confirm]. *)
Definition clearAll (confirmed : bool) : P unit :=
  if confirmed then
    images <- get_images ;;
    pforEach images (fun img => lift (revokeObjectURL (UploadedImage.previewUrl img))) ;;
    setImages [] ;;
    setResult None
  else pret tt.

(** The cleanup that the effect returns, for the [images] and the [result]
    that it closed over. *)
Definition cleanup (images : list UploadedImage.t) (result : option StitchResult.t) : P unit :=
  pforEach images (fun img => lift (revokeObjectURL (UploadedImage.previewUrl img))) ;;
  match result with
  | Some r => lift (revokeObjectURL (StitchResult.url r))
  | None => pret tt
  end.

(** The effect has no dependency: it ran after the first render only, and
    its cleanup closed over the state of that render. *)
Definition unmount : P unit :=
  cleanup (App.images App.initial) (App.result App.initial).

(** *** ImageUploader.tsx *)

Section Uploader.

Variable onFilesSelected : list File -> P unit.

Definition handleDragOver : P unit := setIsDragging true.

Definition handleDragLeave : P unit := setIsDragging false.

Definition handleFiles (files : list File) : P unit :=
  let validImages := filter (fun file => String.prefix "image/" (file_type file)) files in
  if (0 <? List.length validImages)%nat then onFilesSelected validImages
  else alert "Please upload valid image files (JPG, PNG, WebP).".

Definition handleDrop (files : list File) : P unit :=
  setIsDragging false ;;
  if (0 <? List.length files)%nat then handleFiles files else pret tt.

Definition handleFileInput (files : list File) : P unit :=
  (if (0 <? List.length files)%nat then handleFiles files else pret tt) ;;
  setInputValue "".

End Uploader.

(** *** The page in use *)

(** What can happen on the page: the events of the uploader, the clicks on
    the buttons of the component, the firing of a timer. *)
Inductive Action : Type :=
| DragOver
| DragLeave
| Drop (files : list File)
| FileInput (files : list File)
| Remove (id : string)
| Move (index : nat) (direction : Direction)
| Stitch
| TimerFires
| Download (now : N)
| ClearAll (confirmed : bool).

Definition handler (a : Action) : P unit :=
  match a with
  | DragOver => handleDragOver
  | DragLeave => handleDragLeave
  | Drop files => handleDrop handleFilesSelected files
  | FileInput files => handleFileInput handleFilesSelected files
  | Remove id => removeImage id
  | Move index direction => clickArrow index direction
  | Stitch => handleStitch
  | TimerFires => timerFires
  | Download now => handleDownload now
  | ClearAll confirmed => clearAll confirmed
  end.

Definition act (page : Page) (a : Action) : Page := snd (handler a page).

Definition session (page : Page) (actions : list Action) : Page := fold_left act actions page.

End Component.

(** The uploads that [handleFilesSelected] makes of [files] on a page that
    has drawn [r] random numbers and minted [m] object URLs. *)
Fixpoint uploads (host : Host) (r m : nat) (files : list File) : list UploadedImage.t :=
  match files with
  | [] => []
  | f :: rest =>
      {| UploadedImage.id := random_id host r;
         UploadedImage.file := f;
         UploadedImage.previewUrl := blob_url m;
         UploadedImage.width := 0;
         UploadedImage.height := 0 |}
      :: uploads host (S r) (S m) rest
  end.

(** An upload as the uploader lets it through and the component makes it:
    an image by its MIME type, with the sizes never filled in. *)
Definition accepted (u : UploadedImage.t) : Prop :=
  String.prefix "image/" (file_type (UploadedImage.file u)) = true
  /\ UploadedImage.width u = 0%float
  /\ UploadedImage.height u = 0%float.

(** What holds of the page throughout its use. *)
Record Sound (page : Page) : Prop :=
  { (* the uploads listed, and those that a timer holds, went through the uploader *)
    sound_images : Forall accepted (App.images (app page));
    sound_timers : Forall (fun job => job <> [] /\ Forall accepted job) (timers page);
    (* the object URLs minted so far are numbered below [minted] *)
    sound_minted :
      forall u, In (CreateObjectURL u) (trace (browser page)) ->
                exists k, (k < minted (browser page))%nat /\ u = blob_url k;
    (* the previews of the uploads listed are distinct and live *)
    sound_distinct : NoDup (map UploadedImage.previewUrl (App.images (app page)));
    sound_previews :
      forall img, In img (App.images (app page)) ->
                  live (trace (browser page)) (UploadedImage.previewUrl img) = true;
    (* the URL of the result is live and is no preview *)
    sound_result :
      forall r, App.result (app page) = Some r ->
                live (trace (browser page)) (StitchResult.url r) = true
                /\ ~ In (StitchResult.url r)
                       (map UploadedImage.previewUrl (App.images (app page)));
    (* every link that was clicked points to a URL that is live and no preview *)
    sound_downloads :
      forall href download, In (href, download) (downloads page) ->
                live (trace (browser page)) href = true
                /\ ~ In href (map UploadedImage.previewUrl (App.images (app page))) }.

(** The page when it has just been loaded, with or without the metadata
    library. *)
Definition loaded_page (piexif : option Piexif) : Page :=
  {| app := App.initial;
     browser := {| window_piexif := piexif; minted := 0; trace := [] |};
     randoms := 0;
     alerts := [];
     timers := [];
     downloads := [];
     isDragging := false;
     inputValue := "" |}.

(** * Proofs *)

(** ** Numbers *)

Example Math_round_samples :
  map Js.Math_round [2.5; 2.4; 0.49999999999999994; 1600; 15.499999999999998; infinity]%float
  = [3; 2; 0; 1600; 15; infinity]%float.
Proof. vm_compute. reflexivity. Qed.

Example Math_round_negative :
  map Js.Math_round [-2.5; -2.6; -0.2]%float = [-2; -3; -0]%float.
Proof. vm_compute. reflexivity. Qed.

Example to_unsigned_long_samples :
  map Js.to_unsigned_long [15.499999999999998; 1600; nan; infinity; -1; 4294967296.5]%float
  = [15; 1600; 0; 0; 4294967295; 0]%Z.
Proof. vm_compute. reflexivity. Qed.

(** ** The two loops *)

Lemma encoded_app (l1 l2 : list Event) : encoded (l1 ++ l2) = encoded l1 ++ encoded l2.
Proof.
  induction l1 as [|e l1 IH]; simpl; [reflexivity|].
  destruct e; simpl; rewrite ?IH; reflexivity.
Qed.

Lemma serialised_app (l1 l2 : list Event) :
  serialised (l1 ++ l2) = serialised l1 ++ serialised l2.
Proof.
  induction l1 as [|e l1 IH]; simpl; [reflexivity|].
  destruct e; simpl; rewrite ?IH; reflexivity.
Qed.

Lemma calculateDrawData_closed (targetWidth : float) (loadedImages : list HTMLImageElement) :
  forall totalHeight,
    calculateDrawData targetWidth loadedImages totalHeight
    = (map (fun i => {| img := i;
                        scaledHeight := scaled targetWidth (decoded i);
                        scaleFactor := (targetWidth / naturalWidth i)%float |})
           loadedImages,
       sum_from totalHeight (map (scaled targetWidth) (map decoded loadedImages))).
Proof.
  induction loadedImages as [|i rest IH]; intros t; simpl.
  - reflexivity.
  - rewrite IH. reflexivity.
Qed.

Lemma drawImages_closed (targetWidth : float) (loadedImages : list HTMLImageElement) :
  forall ctx y,
    canvas (fst (drawImages ctx targetWidth
                   (map (fun i => {| img := i;
                                     scaledHeight := scaled targetWidth (decoded i);
                                     scaleFactor := (targetWidth / naturalWidth i)%float |})
                        loadedImages) y))
    = {| canvas_width := canvas_width (canvas ctx);
         canvas_height := canvas_height (canvas ctx);
         canvas_ops := canvas_ops (canvas ctx)
                       ++ draws targetWidth (map decoded loadedImages) y |}.
Proof.
  induction loadedImages as [|i rest IH]; intros ctx y; simpl.
  - rewrite app_nil_r. destruct ctx as [f [w h ops]]. reflexivity.
  - rewrite IH. simpl. rewrite <- app_assoc. reflexivity.
Qed.



(** ** Promises started together *)

Lemma race_values {A} (when : nat -> nat) (rs : list (Thrown + A)) :
  forall i l, race when i rs = inr l <-> rs = map inr l.
Proof.
  induction rs as [|r rest IH]; intros i l; cbn [race].
  - split; intros H.
    + injection H as <-. reflexivity.
    + destruct l; [reflexivity|discriminate].
  - destruct r as [e|a]; destruct (race when (S i) rest) as [[t e']|l'] eqn:R.
    + split; intros H.
      * destruct (t <? when i)%nat; discriminate.
      * destruct l; discriminate.
    + split; intros H; [discriminate|]. destruct l; discriminate.
    + split; intros H; [discriminate|].
      destruct l as [|b l]; [discriminate|]. injection H as _ Hrest.
      apply (IH (S i) l) in Hrest. rewrite R in Hrest. discriminate.
    + split; intros H.
      * injection H as <-. cbn [map]. f_equal. apply (IH (S i) l'). exact R.
      * destruct l as [|b l]; [discriminate|]. injection H as -> Hrest.
        apply (IH (S i) l) in Hrest. rewrite R in Hrest. injection Hrest as ->.
        reflexivity.
Qed.

(** The rejection that [race] picks is one of the rejections, and none of
    them comes at an earlier tick. *)
Lemma race_first {A} (when : nat -> nat) (rs : list (Thrown + A)) :
  forall i t e,
    race when i rs = inl (t, e) ->
    exists k,
      nth_error rs k = Some (inl e)
      /\ t = when (i + k)%nat
      /\ forall j e', nth_error rs j = Some (inl e') -> (t <= when (i + j)%nat)%nat.
Proof.
  induction rs as [|r rest IH]; intros i t e H; cbn [race] in H; [discriminate|].
  assert (Hs : forall j, (S i + j = i + S j)%nat) by (intros; lia).
  destruct r as [e0|a]; destruct (race when (S i) rest) as [[t1 e1]|l'] eqn:R.
  - destruct (IH (S i) t1 e1 R) as (k & Hk & Ht & Hmin).
    destruct (t1 <? when i)%nat eqn:C.
    + injection H as <- <-. exists (S k). split; [exact Hk|].
      split; [rewrite <- Hs; exact Ht|].
      intros [|j] e' Hj.
      * rewrite Nat.add_0_r. apply Nat.ltb_lt in C. lia.
      * rewrite <- Hs. apply (Hmin j e'). exact Hj.
    + injection H as <- <-. exists 0%nat. split; [reflexivity|].
      split; [rewrite Nat.add_0_r; reflexivity|].
      intros [|j] e' Hj.
      * rewrite Nat.add_0_r. apply Nat.le_refl.
      * apply Nat.ltb_ge in C. rewrite <- Hs.
        apply Nat.le_trans with t1; [exact C|]. apply (Hmin j e'). exact Hj.
  - injection H as <- <-. exists 0%nat. split; [reflexivity|].
    split; [rewrite Nat.add_0_r; reflexivity|].
    intros [|j] e' Hj.
    + rewrite Nat.add_0_r. apply Nat.le_refl.
    + cbn [nth_error] in Hj. apply (race_values when rest (S i) l') in R.
      rewrite R in Hj. rewrite nth_error_map in Hj.
      destruct (nth_error l' j); discriminate.
  - injection H as <- <-.
    destruct (IH (S i) t1 e1 R) as (k & Hk & Ht & Hmin).
    exists (S k). split; [exact Hk|]. split; [rewrite <- Hs; exact Ht|].
    intros [|j] e' Hj; [discriminate|]. rewrite <- Hs. apply (Hmin j e'). exact Hj.
  - discriminate.
Qed.

Lemma decodeAll_values (env : Env) (files : list File) (bitmaps : list Bitmap) :
  decodeAll env files = inr bitmaps <-> map (decode env) files = map inr bitmaps.
Proof.
  unfold decodeAll.
  rewrite <- (race_values (settles_at env files) (map (decode env) files) 0 bitmaps).
  destruct (race (settles_at env files) 0 (map (decode env) files)) as [[t e]|l].
  - split; discriminate.
  - split; intros H; injection H as ->; reflexivity.
Qed.

Lemma settled_loads (env : Env) (uploadedImages : list UploadedImage.t) :
  forall st,
    settled (map (fun u => loadImage env (UploadedImage.file u)) uploadedImages) st
    = (loads env (minted st) (map UploadedImage.file uploadedImages),
       advance st (List.length uploadedImages)
         (load_events (minted st) (map UploadedImage.file uploadedImages))).
Proof.
  induction uploadedImages as [|u rest IH]; intros st.
  - simpl. unfold advance. rewrite Nat.add_0_r, app_nil_r. destruct st; reflexivity.
  - cbn [map settled].
    unfold loadImage at 1, bind at 1, createObjectURL at 1.
    unfold bind at 1, emit at 1. unfold bind at 1. cbv beta iota zeta.
    cbn [loads].
    destruct (decode env (UploadedImage.file u)) as [e|b]; cbn [settle throw ret];
      rewrite IH; cbn [minted trace window_piexif];
      (f_equal; unfold advance; cbn [minted trace window_piexif List.length load_events];
       f_equal; [lia | rewrite <- !app_assoc; reflexivity]).
Qed.

Lemma race_loads (env : Env) (when : nat -> nat) (files : list File) :
  forall i m,
    race when i (loads env m files)
    = match race when i (map (decode env) files) with
      | inl first => inl first
      | inr bitmaps => inr (loaded m bitmaps)
      end.
Proof.
  induction files as [|f rest IH]; intros i m; [reflexivity|].
  cbn [loads map race]. rewrite IH.
  destruct (decode env f) as [e|b];
    destruct (race when (S i) (map (decode env) rest)) as [[t e']|bs];
    try reflexivity.
  destruct (t <? when i)%nat; reflexivity.
Qed.

Lemma loadImages_exact (env : Env) (uploadedImages : list UploadedImage.t) :
  forall st,
    promise_all (settles_at env (map UploadedImage.file uploadedImages))
      (map (fun u => loadImage env (UploadedImage.file u)) uploadedImages) st
    = (match decodeAll env (map UploadedImage.file uploadedImages) with
       | inl e => Threw e
       | inr bitmaps => Returned (loaded (minted st) bitmaps)
       end,
       advance st (List.length uploadedImages)
         (load_events (minted st) (map UploadedImage.file uploadedImages))).
Proof.
  intros st. unfold promise_all, decodeAll. rewrite settled_loads, race_loads.
  destruct (race (settles_at env (map UploadedImage.file uploadedImages)) 0
              (map (decode env) (map UploadedImage.file uploadedImages))) as [[t e]|bs];
    reflexivity.
Qed.

Lemma decodeAll_length (env : Env) (files : list File) :
  forall bitmaps, decodeAll env files = inr bitmaps -> List.length bitmaps = List.length files.
Proof.
  intros bitmaps H. apply decodeAll_values in H.
  rewrite <- (length_map (decode env) files), H. apply eq_sym, length_map.
Qed.

Lemma loaded_decoded (bitmaps : list Bitmap) :
  forall m, map decoded (loaded m bitmaps) = bitmaps.
Proof.
  induction bitmaps as [|b rest IH]; intros m; simpl; [reflexivity|].
  rewrite IH. reflexivity.
Qed.

Lemma encoded_load_events (files : list File) :
  forall m, encoded (load_events m files) = [].
Proof.
  induction files as [|f rest IH]; intros m; simpl; [reflexivity|]. apply IH.
Qed.

(** ** Running the steps *)

Section Runs.

Variable env : Env.

Lemma loadImage_runs (file : File) (st : Browser) :
  exists o st' events,
    runs (loadImage env file) st o st' events
    /\ encoded events = []
    /\ match decode env file with
       | inl e => o = Threw e
       | inr b => exists i, o = Returned i /\ decoded i = b
       end.
Proof.
  unfold runs, loadImage, bind, createObjectURL, emit, settle, throw, ret. simpl.
  destruct (decode env file) as [e|b]; simpl;
    eexists; eexists; eexists; (split; [split; [reflexivity|split; [reflexivity|]]|]);
    try (simpl; rewrite <- app_assoc; reflexivity);
    (split; [reflexivity|]).
  - reflexivity.
  - eexists. split; reflexivity.
Qed.

Lemma loadImages_runs (uploadedImages : list UploadedImage.t) :
  forall st,
  exists o st' events,
    runs (promise_all (settles_at env (map UploadedImage.file uploadedImages))
            (map (fun u => loadImage env (UploadedImage.file u)) uploadedImages))
         st o st' events
    /\ encoded events = []
    /\ match decodeAll env (map UploadedImage.file uploadedImages) with
       | inl e => o = Threw e
       | inr bitmaps => exists imgs, o = Returned imgs /\ map decoded imgs = bitmaps
       end.
Proof.
  intros st. eexists; eexists; eexists. split; [|split].
  - unfold runs. rewrite loadImages_exact. split; [reflexivity|]. split; reflexivity.
  - apply encoded_load_events.
  - destruct (decodeAll env (map UploadedImage.file uploadedImages)) as [e|bitmaps].
    + reflexivity.
    + eexists. split; [reflexivity|]. apply loaded_decoded.
Qed.

(** *** The EXIF step *)

Ltac unfold_exif :=
  unfold runs, transferExif, try_catch, bind, readFileAsDataURL, get_piexif, console,
    emit, settle, throw, ret; simpl.

Ltac close_run :=
  eexists; eexists;
  (split; [split; [reflexivity|split; [reflexivity|]]|]);
  [simpl; repeat rewrite <- app_assoc; reflexivity|].

(** The step always returns a data URL: nothing it throws leaves it. *)
Lemma transferExif_returns (uploadedImages : list UploadedImage.t) (stitchedDataUrl : string)
    (st : Browser) :
  exists finalDataUrl st' events,
    runs (transferExif env uploadedImages stitchedDataUrl) st
         (Returned finalDataUrl) st' events
    /\ encoded events = [].
Proof.
  unfold_exif.
  destruct uploadedImages as [|u rest]; simpl.
  { eexists. close_run. reflexivity. }
  destruct (readAsDataURL env (UploadedImage.file u)) as [e|data]; simpl.
  { eexists. close_run. reflexivity. }
  destruct (window_piexif st) as [p|]; simpl.
  2:{ eexists. close_run. reflexivity. }
  destruct (piexif_load p data) as [e|exifObj]; simpl.
  { eexists. close_run. reflexivity. }
  destruct (Js.typeof exifObj =? "object"); simpl.
  2:{ eexists. close_run. reflexivity. }
  destruct (piexif_dump p exifObj) as [e|exifBytes]; simpl.
  { eexists. close_run. reflexivity. }
  destruct (piexif_insert p exifBytes stitchedDataUrl) as [e|finalDataUrl]; simpl.
  { eexists. close_run. reflexivity. }
  eexists. close_run. reflexivity.
Qed.

(** When the step fails, the data URL it returns is the one it was given. *)
Lemma transferExif_failure (u : UploadedImage.t) (rest : list UploadedImage.t)
    (stitchedDataUrl : string) (st : Browser) :
  MetadataFailure env (window_piexif st) (UploadedImage.file u) stitchedDataUrl ->
  exists st' events,
    runs (transferExif env (u :: rest) stitchedDataUrl) st
         (Returned stitchedDataUrl) st' events
    /\ encoded events = [].
Proof.
  intros F. unfold_exif.
  destruct F as [e R|P|p data e P R L|p data v e P R L T D|p data v b e P R L T D I].
  - rewrite R; simpl. close_run. reflexivity.
  - destruct (readAsDataURL env (UploadedImage.file u)) as [e|data]; simpl.
    + close_run. reflexivity.
    + rewrite P; simpl. close_run. reflexivity.
  - rewrite R; simpl. rewrite P; simpl. rewrite L; simpl. close_run. reflexivity.
  - rewrite R; simpl. rewrite P; simpl. rewrite L; simpl. rewrite T; simpl.
    rewrite D; simpl. close_run. reflexivity.
  - rewrite R; simpl. rewrite P; simpl. rewrite L; simpl. rewrite T; simpl.
    rewrite D; simpl. rewrite I; simpl. close_run. reflexivity.
Qed.

Lemma decodeAll_cons (f : File) (files : list File) (bitmaps : list Bitmap) :
  decodeAll env (f :: files) = inr bitmaps ->
  exists b bs, bitmaps = b :: bs /\ decode env f = inr b /\ decodeAll env files = inr bs.
Proof.
  intros H. apply decodeAll_values in H.
  destruct bitmaps as [|b bs]; [discriminate|]. cbn [map] in H. injection H as Hb Hbs.
  exists b, bs. split; [reflexivity|]. split; [exact Hb|].
  apply decodeAll_values. exact Hbs.
Qed.

Lemma revoke_runs (loadedImages : list HTMLImageElement) :
  forall st,
  exists st' events,
    runs (forEach loadedImages (fun i => revokeObjectURL (src i))) st (Returned tt) st' events
    /\ encoded events = [].
Proof.
  induction loadedImages as [|i rest IH]; intros st.
  - exists st, []. unfold runs. simpl. rewrite app_nil_r. repeat split.
  - unfold runs, revokeObjectURL in *. cbn [forEach]. unfold bind, emit at 1. cbv beta iota.
    match goal with |- context [forEach rest _ ?s] => destruct (IH s) as (st' & ev & (R & P & T) & E) end.
    exists st', (RevokeObjectURL (src i) :: ev). rewrite R. simpl in *.
    repeat split; try assumption.
    rewrite T, <- app_assoc. reflexivity.
Qed.

Lemma paintCanvas_planned (loadedImages : list HTMLImageElement) :
  paintCanvas
    {| fillStyle := "#000000"; canvas := planned_canvas (map decoded loadedImages) |}
    (target_width (map decoded loadedImages))
    (map (fun i => {| img := i;
                      scaledHeight := scaled (target_width (map decoded loadedImages))
                                        (decoded i);
                      scaleFactor := (target_width (map decoded loadedImages)
                                      / naturalWidth i)%float |})
         loadedImages)
  = stitched_canvas (map decoded loadedImages).
Proof. unfold paintCanvas. rewrite drawImages_closed. reflexivity. Qed.

Lemma stitchImages_decoded (u : UploadedImage.t) (rest : list UploadedImage.t)
    (bitmaps : list Bitmap) (st : Browser) :
  decodeAll env (map UploadedImage.file (u :: rest)) = inr bitmaps ->
  exists o st' events,
    runs (stitchImages env (u :: rest)) st o st' events
    /\ In (GetContext (planned_canvas bitmaps)) events
    /\ (getContext2d env (planned_canvas bitmaps) = false ->
        o = Threw (JsError "Could not get canvas context") /\ encoded events = [])
    /\ (getContext2d env (planned_canvas bitmaps) = true ->
        encoded events = [stitched_canvas bitmaps]
        /\ exists finalDataUrl st2 st3 events2,
            runs (transferExif env (u :: rest) (stitched_url env bitmaps)) st2
                 (Returned finalDataUrl) st3 events2
            /\ window_piexif st2 = window_piexif st
            /\ match fetchBlob env finalDataUrl with
               | inl e => o = Threw e
               | inr blob =>
                   exists url,
                     o = Returned {| StitchResult.blob := blob;
                                     StitchResult.url := url;
                                     StitchResult.width := target_width bitmaps;
                                     StitchResult.height :=
                                       Js.Math_round (total_height bitmaps) |}
               end).
Proof.
  intros D.
  destruct (loadImages_runs (u :: rest) st) as (o1 & st1 & ev1 & (R1 & P1 & T1) & E1 & D1).
  rewrite D in D1. destruct D1 as (imgs & -> & Hmap).
  destruct imgs as [|first others].
  { destruct (decodeAll_cons _ _ _ D) as (b & bs & Hb & _). subst. discriminate. }
  unfold runs, stitchImages. cbn [List.length Nat.eqb].
  unfold bind at 1. rewrite R1.
  unfold bind at 1. cbn [settle ret].
  rewrite calculateDrawData_closed.
  change (naturalWidth first) with (target_width (map decoded (first :: others))).
  change (set_height (set_width createCanvas (target_width (map decoded (first :: others))))
            (sum_from 0 (map (scaled (target_width (map decoded (first :: others))))
                           (map decoded (first :: others)))))
    with (planned_canvas (map decoded (first :: others))).
  rewrite paintCanvas_planned.
  change (sum_from 0 (map (scaled (target_width (map decoded (first :: others))))
                           (map decoded (first :: others))))
    with (total_height (map decoded (first :: others))).
  rewrite Hmap.
  unfold bind at 1, emit at 1. cbv beta iota.
  destruct (getContext2d env (planned_canvas bitmaps)) eqn:G; cbn [negb].
  - unfold bind at 1, emit at 1. cbv beta iota.
    change (toDataURL env (stitched_canvas bitmaps) "image/jpeg" 1) with (stitched_url env bitmaps) in *.
    unfold bind at 1.
    match goal with |- context [transferExif env ?us ?url ?s] =>
      set (st2 := s);
      destruct (transferExif_returns us url st2) as (final & st3 & ev3 & (R3 & P3 & T3) & E3)
    end.
    rewrite R3.
    unfold bind at 1, emit at 1. cbv beta iota.
    assert (P2 : window_piexif st2 = window_piexif st) by (subst st2; simpl; exact P1).
    assert (T2 : trace st3 = trace st ++ ev1 ++ [GetContext (planned_canvas bitmaps)]
                              ++ [Encode (stitched_canvas bitmaps) "image/jpeg" 1] ++ ev3).
    { rewrite T3. subst st2. simpl. rewrite T1. repeat rewrite <- app_assoc. reflexivity. }
    unfold bind at 1.
    destruct (fetchBlob env final) as [e|blob] eqn:F; cbn [settle throw ret].
    + eexists; eexists;
        exists (ev1 ++ [GetContext (planned_canvas bitmaps)]
                ++ [Encode (stitched_canvas bitmaps) "image/jpeg" 1] ++ ev3 ++ [Fetch final]).
      split; [split; [reflexivity|split]|split; [|split]].
      * simpl. congruence.
      * simpl. rewrite T2. repeat rewrite <- app_assoc. reflexivity.
      * apply in_or_app. right. left. reflexivity.
      * discriminate.
      * intros _. split.
        { repeat rewrite encoded_app. rewrite E1, E3. reflexivity. }
        exists final, st2, st3, ev3. split; [repeat split; assumption|].
        split; [exact P2|]. rewrite F. reflexivity.
    + unfold bind at 1, createObjectURL at 1. cbv beta iota zeta.
      unfold bind at 1.
      match goal with |- context [forEach ?l ?f ?s] =>
        destruct (revoke_runs l s) as (st5 & ev5 & (R5 & P5 & T5) & E5)
      end.
      rewrite R5. cbn [ret].
      simpl in P5, T5.
      eexists; eexists;
        exists (ev1 ++ [GetContext (planned_canvas bitmaps)]
                ++ [Encode (stitched_canvas bitmaps) "image/jpeg" 1] ++ ev3 ++ [Fetch final]
                ++ [CreateObjectURL
                      (String.append "blob:"
                         (NilEmpty.string_of_uint (Nat.to_uint (minted st3))))] ++ ev5).
      split; [split; [reflexivity|split]|split; [|split]].
      * congruence.
      * rewrite T5, T2. repeat rewrite <- app_assoc. reflexivity.
      * apply in_or_app. right. left. reflexivity.
      * discriminate.
      * intros _. split.
        { repeat rewrite encoded_app. rewrite E1, E3, E5. reflexivity. }
        exists final, st2, st3, ev3. split; [repeat split; assumption|].
        split; [exact P2|]. rewrite F. eexists. reflexivity.
  - unfold throw.
    eexists; eexists; exists (ev1 ++ [GetContext (planned_canvas bitmaps)]).
    split; [split; [reflexivity|split]|split; [|split]].
    + simpl. exact P1.
    + simpl. rewrite T1, <- app_assoc. reflexivity.
    + apply in_or_app. right. left. reflexivity.
    + intros _. split; [reflexivity|]. rewrite encoded_app, E1. reflexivity.
    + discriminate.
Qed.
Lemma stitchImages_undecoded (u : UploadedImage.t) (rest : list UploadedImage.t)
    (e : Thrown) (st : Browser) :
  decodeAll env (map UploadedImage.file (u :: rest)) = inl e ->
  exists st', stitchImages env (u :: rest) st = (Threw e, st').
Proof.
  intros D.
  destruct (loadImages_runs (u :: rest) st) as (o1 & st1 & ev1 & (R1 & _) & _ & D1).
  rewrite D in D1. subst o1.
  unfold stitchImages. cbn [List.length Nat.eqb].
  unfold bind at 1. rewrite R1. exists st1. reflexivity.
Qed.

(** What a call that returned went through. *)
Lemma stitchImages_returned (u : UploadedImage.t) (rest : list UploadedImage.t)
    (st st' : Browser) (r : StitchResult.t) :
  stitchImages env (u :: rest) st = (Returned r, st') ->
  exists bitmaps events finalDataUrl st2 st3 events2,
    decodeAll env (map UploadedImage.file (u :: rest)) = inr bitmaps
    /\ getContext2d env (planned_canvas bitmaps) = true
    /\ trace st' = trace st ++ events
    /\ encoded events = [stitched_canvas bitmaps]
    /\ runs (transferExif env (u :: rest) (stitched_url env bitmaps)) st2
            (Returned finalDataUrl) st3 events2
    /\ window_piexif st2 = window_piexif st
    /\ fetchBlob env finalDataUrl = inr (StitchResult.blob r)
    /\ StitchResult.width r = target_width bitmaps
    /\ StitchResult.height r = Js.Math_round (total_height bitmaps).
Proof.
  intros H.
  destruct (decodeAll env (map UploadedImage.file (u :: rest))) as [e|bitmaps] eqn:D.
  { destruct (stitchImages_undecoded u rest e st D) as (st1 & H1). congruence. }
  destruct (stitchImages_decoded u rest bitmaps st D)
    as (o & st1 & events & (R & _ & T) & _ & Hno & Hyes).
  rewrite H in R. injection R as <- <-.
  destruct (getContext2d env (planned_canvas bitmaps)) eqn:G.
  2:{ destruct (Hno eq_refl) as [Ho _]. discriminate. }
  destruct (Hyes eq_refl) as (E & final & st2 & st3 & ev2 & Rx & P2 & F).
  destruct (fetchBlob env final) as [e|blob] eqn:Fb; [discriminate|].
  destruct F as (url & Hr). injection Hr as ->.
  exists bitmaps, events, final, st2, st3, ev2. simpl. rewrite Fb.
  repeat split; try assumption; apply Rx.
Qed.

End Runs.

(** ** Properties of [stitchImages] *)

(** C4. Called with no image, [stitchImages] throws the empty-input error
    at once: the page is left exactly as it was, so no object URL was
    minted, no file was handed to the decoder, and there is no result. *)
Theorem empty_input_fails_first (env : Env) (st : Browser) :
  stitchImages env [] st = (Threw EmptyInputError, st).
Proof. reflexivity. Qed.

(** C1. When [stitchImages] returns for a non-empty input, the width of the
    result is the intrinsic width of the bitmap decoded from the first
    file; the same holds whatever images follow the first one. *)
Theorem width_is_first_natural_width (env : Env) (u : UploadedImage.t)
    (rest : list UploadedImage.t) (st st' : Browser) (r : StitchResult.t) :
  stitchImages env (u :: rest) st = (Returned r, st') ->
  exists b,
    decode env (UploadedImage.file u) = inr b
    /\ StitchResult.width r = Js.number_of_Z (bitmap_width b)
    /\ forall others st2 st2' r2,
         stitchImages env (u :: others) st2 = (Returned r2, st2') ->
         StitchResult.width r2 = Js.number_of_Z (bitmap_width b).
Proof.
  intros H.
  destruct (stitchImages_returned env u rest st st' r H)
    as (bitmaps & ev & final & sa & sb & ev' & D & _ & _ & _ & _ & _ & _ & W & _).
  destruct (decodeAll_cons env _ _ _ D) as (b & bs & -> & Db & _).
  exists b. split; [exact Db|]. split; [exact W|].
  intros others st2 st2' r2 H2.
  destruct (stitchImages_returned env u others st2 st2' r2 H2)
    as (bitmaps2 & ev2 & final2 & sa2 & sb2 & ev2' & D2 & _ & _ & _ & _ & _ & _ & W2 & _).
  destruct (decodeAll_cons env _ _ _ D2) as (b2 & bs2 & -> & Db2 & _).
  rewrite Db in Db2. injection Db2 as <-. exact W2.
Qed.

Lemma width_is_first_natural_width_witness :
  exists r st',
    stitchImages Sample.page [Sample.A; Sample.B; Sample.C] (Sample.fresh None)
    = (Returned r, st')
    /\ exists b,
         decode Sample.page (UploadedImage.file Sample.A) = inr b
         /\ StitchResult.width r = Js.number_of_Z (bitmap_width b)
         /\ forall others st2 st2' r2,
              stitchImages Sample.page (Sample.A :: others) st2 = (Returned r2, st2') ->
              StitchResult.width r2 = Js.number_of_Z (bitmap_width b).
Proof.
  eexists; eexists. split; [vm_compute; reflexivity|].
  eapply (width_is_first_natural_width Sample.page Sample.A [Sample.B; Sample.C]
           (Sample.fresh None)).
  vm_compute; reflexivity.
Defined.

(** C2, as stated, fails.  A 3x2 image followed by a 22x99 image: the exact
    sum is 2 + 99 * 3 / 22 = 15.5, which rounds to 16, and the same formula
    evaluated from left to right on Numbers gives 16 as well; the code
    multiplies 99 by the already rounded quotient 3 / 22, accumulates
    15.499999999999998 and reports 15. *)
Lemma height_differs_from_exact_rounding :
  exists r st',
    stitchImages Sample.page
      [Sample.upload "d" (Sample.jpeg Byte.x04); Sample.upload "e" (Sample.jpeg Byte.x05)]
      (Sample.fresh None)
    = (Returned r, st')
    /\ decodeAll Sample.page [Sample.jpeg Byte.x04; Sample.jpeg Byte.x05]
       = inr [Sample.bitmap_of (Sample.jpeg Byte.x04) 3 2;
              Sample.bitmap_of (Sample.jpeg Byte.x05) 22 99]
    /\ StitchResult.height r = 15%float
    /\ exact_height [Sample.bitmap_of (Sample.jpeg Byte.x04) 3 2;
                     Sample.bitmap_of (Sample.jpeg Byte.x05) 22 99] = 16%Z
    /\ Js.Math_round (0 + 2 * 3 / 3 + 99 * 3 / 22)%float = 16%float.
Proof.
  eexists; eexists. split; [vm_compute; reflexivity|].
  split; [reflexivity|]. split; [reflexivity|]. split; vm_compute; reflexivity.
Qed.

(** C2, amended.  When [stitchImages] returns, the height of the result is
    [Math.round], applied once, to the sum of the scaled heights of the
    decoded bitmaps, where the scaled height of an image is its intrinsic
    height times the quotient of the target width by its intrinsic width,
    and quotient, product and sum are those of Numbers, the sum being
    accumulated from 0 in the order of the input. *)
Theorem height_is_rounded_sum (env : Env) (u : UploadedImage.t)
    (rest : list UploadedImage.t) (st st' : Browser) (r : StitchResult.t) :
  stitchImages env (u :: rest) st = (Returned r, st') ->
  exists bitmaps,
    decodeAll env (map UploadedImage.file (u :: rest)) = inr bitmaps
    /\ StitchResult.height r
       = Js.Math_round
           (fold_left PrimFloat.add
              (map (fun b => (Js.number_of_Z (bitmap_height b)
                              * (target_width bitmaps / Js.number_of_Z (bitmap_width b)))%float)
                   bitmaps)
              0%float).
Proof.
  intros H.
  destruct (stitchImages_returned env u rest st st' r H)
    as (bitmaps & ev & final & sa & sb & ev' & D & _ & _ & _ & _ & _ & _ & _ & Hh).
  exists bitmaps. split; [exact D|exact Hh].
Qed.

Lemma height_is_rounded_sum_witness :
  exists r st',
    stitchImages Sample.page [Sample.A; Sample.B; Sample.C] (Sample.fresh None)
    = (Returned r, st')
    /\ exists bitmaps,
         decodeAll Sample.page (map UploadedImage.file [Sample.A; Sample.B; Sample.C])
         = inr bitmaps
         /\ StitchResult.height r
            = Js.Math_round
                (fold_left PrimFloat.add
                   (map (fun b => (Js.number_of_Z (bitmap_height b)
                                   * (target_width bitmaps
                                      / Js.number_of_Z (bitmap_width b)))%float)
                        bitmaps)
                   0%float).
Proof.
  eexists; eexists. split; [vm_compute; reflexivity|].
  eapply (height_is_rounded_sum Sample.page Sample.A [Sample.B; Sample.C] (Sample.fresh None)).
  vm_compute; reflexivity.
Defined.

(** C3. On an input that decodes, whose canvas gets a context and is
    encoded, a failure of the EXIF step (the first file cannot be read, the
    library is absent, [load], [dump] or [insert] throws) does not make
    [stitchImages] fail: the call returns, and the blob of its result is the
    one fetched from the data URL that the canvas was encoded to, before any
    EXIF handling.  Besides, the EXIF step returns a data URL on every page
    and every input: no exception leaves it. *)
Theorem metadata_failure_is_absorbed (env : Env) (u : UploadedImage.t)
    (rest : list UploadedImage.t) (st : Browser) (bitmaps : list Bitmap) (blob : Blob) :
  decodeAll env (map UploadedImage.file (u :: rest)) = inr bitmaps ->
  getContext2d env (planned_canvas bitmaps) = true ->
  MetadataFailure env (window_piexif st) (UploadedImage.file u)
    (toDataURL env (stitched_canvas bitmaps) "image/jpeg" 1) ->
  fetchBlob env (toDataURL env (stitched_canvas bitmaps) "image/jpeg" 1) = inr blob ->
  (exists r st',
      stitchImages env (u :: rest) st = (Returned r, st')
      /\ StitchResult.blob r = blob
      /\ StitchResult.width r = target_width bitmaps
      /\ StitchResult.height r = Js.Math_round (total_height bitmaps))
  /\ (forall uploadedImages stitchedDataUrl st2,
        exists finalDataUrl st3,
          transferExif env uploadedImages stitchedDataUrl st2 = (Returned finalDataUrl, st3)).
Proof.
  intros D G F B. split.
  - destruct (stitchImages_decoded env u rest bitmaps st D)
      as (o & st' & events & (R & _) & _ & _ & Hyes).
    destruct (Hyes G) as (_ & final & st2 & st3 & ev2 & (Rx & _) & P2 & Hfetch).
    rewrite <- P2 in F.
    destruct (transferExif_failure env u rest _ st2 F) as (st4 & ev4 & (Ry & _) & _).
    unfold stitched_url in Rx. rewrite Ry in Rx. injection Rx as <- _.
    rewrite B in Hfetch. destruct Hfetch as (url & ->).
    eexists; eexists. split; [exact R|]. repeat split.
  - intros us url st2.
    destruct (transferExif_returns env us url st2) as (final & st3 & ev & (R & _) & _).
    exists final, st3. exact R.
Qed.

Lemma metadata_failure_is_absorbed_witness :
  let inputs := [Sample.upload "p" (Sample.png Byte.x01); Sample.B] in
  let bitmaps := [Sample.bitmap_of (Sample.png Byte.x01) 800 600;
                  Sample.bitmap_of (Sample.jpeg Byte.x02) 400 400] in
  let st := Sample.fresh (Some (Sample.library Sample.tags)) in
  (exists r st',
      stitchImages Sample.page inputs st = (Returned r, st')
      /\ StitchResult.blob r
         = {| blob_type := "image/jpeg";
              blob_bytes := list_byte_of_string "data:image/jpeg;base64,STITCHED" |}
      /\ StitchResult.width r = target_width bitmaps
      /\ StitchResult.height r = Js.Math_round (total_height bitmaps))
  /\ (forall uploadedImages stitchedDataUrl st2,
        exists finalDataUrl st3,
          transferExif Sample.page uploadedImages stitchedDataUrl st2
          = (Returned finalDataUrl, st3)).
Proof.
  intros inputs bitmaps st.
  apply (metadata_failure_is_absorbed Sample.page (Sample.upload "p" (Sample.png Byte.x01))
           [Sample.B] st bitmaps).
  - reflexivity.
  - reflexivity.
  - apply (ExtractionFails Sample.page _ _ _ (Sample.library Sample.tags)
             "data:image/png;base64,SOURCE" (Rejection "'load' gots invalid file data."));
      reflexivity.
  - reflexivity.
Defined.

(** C5.  The code misses here what it sets out to do.  Its comments say
    that the block is injected if EXIF exists, and that the guard is there
    to tell that there is none; but the guard is [typeof exifObj ===
    'object'].  A library that finds no tag returns the empty tag set, an
    object whose groups are all empty (piexifjs does, for a JPEG file
    without EXIF); it passes the guard, and so would [null] for an absent
    block: the empty block is serialised and spliced, and the data URL that
    comes back is not the stitched one, where the claim has the encoded
    bytes unchanged. *)
Lemma empty_block_is_spliced :
  let stitched := "data:image/jpeg;base64,STITCHED" in
  (exists st',
      piexif_load (Sample.library Sample.no_tags) "data:image/jpeg;base64,SOURCE"
      = inr Sample.no_tags
      /\ transferExif Sample.page [Sample.A] stitched
           (Sample.fresh (Some (Sample.library Sample.no_tags)))
         = (Returned "data:image/jpeg;base64,STITCHED+Exif", st')
      /\ serialised (trace st')
         = [PiexifDump Sample.no_tags; PiexifInsert "Exif" stitched])
  /\ (exists st',
        transferExif Sample.page [Sample.A] stitched
          (Sample.fresh (Some (Sample.library Js.Null)))
        = (Returned "data:image/jpeg;base64,STITCHED+Exif", st')
        /\ serialised (trace st') = [PiexifDump Js.Null; PiexifInsert "Exif" stitched]).
Proof.
  intros stitched. split; eexists; repeat split; vm_compute; reflexivity.
Qed.

(** What the guard does keep out.  If the library is present, the first
    file is read and [load] returns a value that is not an object (the
    empty string, say), the EXIF step returns the data URL it was given,
    and the only calls it made are the reading of the file and [load]:
    nothing is serialised, nothing is spliced. *)
Lemma non_object_block_leaves_bytes (env : Env) (u : UploadedImage.t)
    (rest : list UploadedImage.t) (st : Browser) (p : Piexif) (data : string)
    (exifObj : Js.value) (stitchedDataUrl : string) :
  window_piexif st = Some p ->
  readAsDataURL env (UploadedImage.file u) = inr data ->
  piexif_load p data = inr exifObj ->
  Js.typeof exifObj <> "object" ->
  exists st',
    transferExif env (u :: rest) stitchedDataUrl st = (Returned stitchedDataUrl, st')
    /\ trace st' = trace st ++ [ReadFile (UploadedImage.file u); PiexifLoad data]
    /\ serialised (trace st') = serialised (trace st).
Proof.
  intros P R L T.
  apply String.eqb_neq in T.
  unfold transferExif, try_catch, bind, readFileAsDataURL, get_piexif, console,
    emit, settle, throw, ret; simpl.
  rewrite R; simpl. rewrite P; simpl. rewrite L; simpl. rewrite T; simpl.
  eexists. split; [reflexivity|]. simpl. rewrite <- app_assoc. split; [reflexivity|].
  rewrite serialised_app. simpl. apply app_nil_r.
Qed.

Lemma non_object_block_leaves_bytes_witness :
  let stitched := "data:image/jpeg;base64,STITCHED" in
  let st := Sample.fresh (Some (Sample.library (Js.String ""))) in
  exists st',
    transferExif Sample.page [Sample.A] stitched st = (Returned stitched, st')
    /\ trace st' = trace st ++ [ReadFile (UploadedImage.file Sample.A);
                                PiexifLoad "data:image/jpeg;base64,SOURCE"]
    /\ serialised (trace st') = serialised (trace st).
Proof.
  intros stitched st.
  apply (non_object_block_leaves_bytes Sample.page Sample.A [] st
           (Sample.library (Js.String "")) "data:image/jpeg;base64,SOURCE" (Js.String "")).
  - reflexivity.
  - reflexivity.
  - reflexivity.
  - discriminate.
Defined.

(** C6, as stated, fails.  Nothing in the code compares the area of the
    canvas with a budget.  On a page that hands out a context, an image of
    2000000000 by 2000000000 pixels is stitched: the canvas that is encoded
    has 4 * 10^18 pixels and the call returns. *)
Lemma huge_canvas_is_composited :
  exists r st' c,
    stitchImages Sample.page [Sample.upload "g" (Sample.jpeg Byte.x07)] (Sample.fresh None)
    = (Returned r, st')
    /\ encoded (trace st') = [c]
    /\ (canvas_width c * canvas_height c = 4000000000000000000)%Z.
Proof.
  eexists; eexists; eexists. split; [vm_compute; reflexivity|].
  split; [reflexivity|]. vm_compute; reflexivity.
Qed.

(** C6, amended.  The compositing step has no pixel budget.  On an input
    that decodes, whatever the area of the planned canvas: if the page gives
    no 2D context for it, the call throws [Error("Could not get canvas
    context")] and nothing is encoded; if the page gives one, the canvas is
    painted and handed to the encoder. *)
Theorem compositing_fails_only_without_context (env : Env) (u : UploadedImage.t)
    (rest : list UploadedImage.t) (st : Browser) (bitmaps : list Bitmap) :
  decodeAll env (map UploadedImage.file (u :: rest)) = inr bitmaps ->
  exists o st' events,
    stitchImages env (u :: rest) st = (o, st')
    /\ trace st' = trace st ++ events
    /\ (getContext2d env (planned_canvas bitmaps) = false ->
        o = Threw (JsError "Could not get canvas context") /\ encoded events = [])
    /\ (getContext2d env (planned_canvas bitmaps) = true ->
        encoded events = [stitched_canvas bitmaps]).
Proof.
  intros D.
  destruct (stitchImages_decoded env u rest bitmaps st D)
    as (o & st' & events & (R & _ & T) & _ & Hno & Hyes).
  exists o, st', events. repeat split; try assumption.
  - apply Hno; assumption.
  - apply Hno; assumption.
  - intros G. apply (Hyes G).
Qed.

Lemma compositing_fails_only_without_context_witness :
  let bitmaps := [Sample.bitmap_of (Sample.jpeg Byte.x07) 2000000000 2000000000] in
  let st := Sample.fresh None in
  exists o st' events,
    stitchImages Sample.page [Sample.upload "g" (Sample.jpeg Byte.x07)] st = (o, st')
    /\ trace st' = trace st ++ events
    /\ (getContext2d Sample.page (planned_canvas bitmaps) = false ->
        o = Threw (JsError "Could not get canvas context") /\ encoded events = [])
    /\ (getContext2d Sample.page (planned_canvas bitmaps) = true ->
        encoded events = [stitched_canvas bitmaps]).
Proof.
  intros bitmaps st.
  apply (compositing_fails_only_without_context Sample.page
           (Sample.upload "g" (Sample.jpeg Byte.x07)) [] st bitmaps).
  reflexivity.
Defined.

(** C7, as stated, fails.  The planning loop divides without looking at the
    divisor.  A 3x2 image followed by an image of intrinsic width 0 and
    height 10: the scale factor of the second is 3 / 0, that is Infinity,
    the total height is Infinity, and the call returns with that height. *)
Lemma zero_width_is_divided_by :
  exists r st',
    decode Sample.page (Sample.jpeg Byte.x06)
    = inr (Sample.bitmap_of (Sample.jpeg Byte.x06) 0 10)
    /\ stitchImages Sample.page
         [Sample.upload "d" (Sample.jpeg Byte.x04); Sample.upload "z" (Sample.jpeg Byte.x06)]
         (Sample.fresh None)
       = (Returned r, st')
    /\ StitchResult.height r = infinity
    /\ map scaleFactor
         (fst (calculateDrawData 3
                 [ {| src := "blob:0"; decoded := Sample.bitmap_of (Sample.jpeg Byte.x04) 3 2 |};
                   {| src := "blob:1"; decoded := Sample.bitmap_of (Sample.jpeg Byte.x06) 0 10 |} ]
                 0))
       = [1%float; infinity].
Proof.
  eexists; eexists. split; [reflexivity|]. split; [vm_compute; reflexivity|].
  split; vm_compute; reflexivity.
Qed.

(** C7, amended.  The planning step checks nothing and cannot fail: for
    every image it computes the scale factor [targetWidth / naturalWidth]
    and the scaled height [naturalHeight * scaleFactor] as Numbers, a zero
    divisor included; and on every input that decodes, whatever the
    intrinsic widths, the call goes on to ask for the context of the canvas
    that was planned. *)
Theorem planning_does_not_check_widths (env : Env) (u : UploadedImage.t)
    (rest : list UploadedImage.t) (st : Browser) (bitmaps : list Bitmap) :
  decodeAll env (map UploadedImage.file (u :: rest)) = inr bitmaps ->
  (forall targetWidth loadedImages totalHeight,
      map (fun d => (img d, scaleFactor d, scaledHeight d))
          (fst (calculateDrawData targetWidth loadedImages totalHeight))
      = map (fun i => (i, (targetWidth / naturalWidth i)%float,
                       (naturalHeight i * (targetWidth / naturalWidth i))%float))
            loadedImages)
  /\ exists o st' events,
       stitchImages env (u :: rest) st = (o, st')
       /\ trace st' = trace st ++ events
       /\ In (GetContext (planned_canvas bitmaps)) events.
Proof.
  intros D. split.
  - intros tw imgs t. rewrite calculateDrawData_closed. simpl fst.
    rewrite map_map. reflexivity.
  - destruct (stitchImages_decoded env u rest bitmaps st D)
      as (o & st' & events & (R & _ & T) & Hin & _).
    exists o, st', events. repeat split; assumption.
Qed.

Lemma planning_does_not_check_widths_witness :
  let inputs := [Sample.upload "d" (Sample.jpeg Byte.x04);
                 Sample.upload "z" (Sample.jpeg Byte.x06)] in
  let bitmaps := [Sample.bitmap_of (Sample.jpeg Byte.x04) 3 2;
                  Sample.bitmap_of (Sample.jpeg Byte.x06) 0 10] in
  let st := Sample.fresh None in
  (forall targetWidth loadedImages totalHeight,
      map (fun d => (img d, scaleFactor d, scaledHeight d))
          (fst (calculateDrawData targetWidth loadedImages totalHeight))
      = map (fun i => (i, (targetWidth / naturalWidth i)%float,
                       (naturalHeight i * (targetWidth / naturalWidth i))%float))
            loadedImages)
  /\ exists o st' events,
       stitchImages Sample.page inputs st = (o, st')
       /\ trace st' = trace st ++ events
       /\ In (GetContext (planned_canvas bitmaps)) events.
Proof.
  intros inputs bitmaps st.
  apply (planning_does_not_check_widths Sample.page
           (Sample.upload "d" (Sample.jpeg Byte.x04))
           [Sample.upload "z" (Sample.jpeg Byte.x06)] st bitmaps).
  reflexivity.
Defined.





(** The sample of three images, 800x600, 400x400 and 1600x400 in this
    order: the target width is 800, the scaled heights are 600, 800 and 200,
    the result is 800 by 1600, and the images are placed at the offsets 0,
    600 and 1400 of a canvas of that size. *)
Example sample_layout :
  exists r st',
    stitchImages Sample.page [Sample.A; Sample.B; Sample.C] (Sample.fresh None)
    = (Returned r, st')
    /\ StitchResult.width r = 800%float
    /\ StitchResult.height r = 1600%float
    /\ encoded (trace st')
       = [ {| canvas_width := 800; canvas_height := 1600;
              canvas_ops :=
                [ FillRect "#FFFFFF" 0 0 800 1600;
                  DrawImage (Sample.bitmap_of (Sample.jpeg Byte.x01) 800 600)
                            0 0 800 600 0 0 800 600;
                  DrawImage (Sample.bitmap_of (Sample.jpeg Byte.x02) 400 400)
                            0 0 400 400 0 600 800 800;
                  DrawImage (Sample.bitmap_of (Sample.jpeg Byte.x03) 1600 400)
                            0 0 1600 400 0 1400 800 200 ] |} ].
Proof.
  eexists; eexists. split; [vm_compute; reflexivity|].
  split; [reflexivity|]. split; reflexivity.
Qed.

(** The canvas is sized with the total height as it is, which the
    [height] attribute truncates, while the result reports the total height
    rounded.  A 2x1 image followed by a 4x3 image: the total height is 2.5,
    the canvas that is encoded is 2 pixels high, the reported height is 3. *)
Example canvas_height_is_truncated :
  exists r st' c,
    stitchImages Sample.page
      [Sample.upload "h" (Sample.jpeg Byte.x08); Sample.upload "i" (Sample.jpeg Byte.x09)]
      (Sample.fresh None)
    = (Returned r, st')
    /\ encoded (trace st') = [c]
    /\ total_height [Sample.bitmap_of (Sample.jpeg Byte.x08) 2 1;
                     Sample.bitmap_of (Sample.jpeg Byte.x09) 4 3] = 2.5%float
    /\ canvas_height c = 2%Z
    /\ StitchResult.height r = 3%float.
Proof.
  eexists; eexists; eexists. split; [vm_compute; reflexivity|].
  split; [reflexivity|]. split; [vm_compute; reflexivity|]. split; reflexivity.
Qed.

(** C9. Two calls on the same input, from any two states of the page (the
    second may be the state the first one left, and the two may differ in
    their [window.piexif]): if both return, the results have the same width
    and the same height, and the one canvas that each call handed to the
    encoder is the same, drawing call for drawing call.  Nothing is said of
    the blobs, which carry what the EXIF step made of that canvas. *)
Theorem repeated_call_same_pixels (env : Env) (uploadedImages : list UploadedImage.t)
    (st1 st1' st2 st2' : Browser) (r1 r2 : StitchResult.t) :
  stitchImages env uploadedImages st1 = (Returned r1, st1') ->
  stitchImages env uploadedImages st2 = (Returned r2, st2') ->
  StitchResult.width r1 = StitchResult.width r2
  /\ StitchResult.height r1 = StitchResult.height r2
  /\ exists c events1 events2,
       trace st1' = trace st1 ++ events1
       /\ trace st2' = trace st2 ++ events2
       /\ encoded events1 = [c]
       /\ encoded events2 = [c].
Proof.
  intros H1 H2.
  destruct uploadedImages as [|u rest]; [discriminate|].
  destruct (stitchImages_returned env u rest st1 st1' r1 H1)
    as (b1 & ev1 & f1 & sa1 & sb1 & ex1 & D1 & _ & T1 & E1 & _ & _ & _ & W1 & Hh1).
  destruct (stitchImages_returned env u rest st2 st2' r2 H2)
    as (b2 & ev2 & f2 & sa2 & sb2 & ex2 & D2 & _ & T2 & E2 & _ & _ & _ & W2 & Hh2).
  rewrite D1 in D2. injection D2 as <-.
  split; [congruence|]. split; [congruence|].
  exists (stitched_canvas b1), ev1, ev2. repeat split; assumption.
Qed.

Lemma repeated_call_same_pixels_witness :
  let inputs := [Sample.A; Sample.B; Sample.C] in
  let st1 := Sample.fresh None in
  let st2 := {| window_piexif := Some (Sample.library Sample.tags);
                minted := minted (snd (stitchImages Sample.page inputs st1));
                trace := trace (snd (stitchImages Sample.page inputs st1)) |} in
  exists r1 st1' r2 st2',
    stitchImages Sample.page inputs st1 = (Returned r1, st1')
    /\ stitchImages Sample.page inputs st2 = (Returned r2, st2')
    /\ StitchResult.blob r1 <> StitchResult.blob r2
    /\ StitchResult.url r1 <> StitchResult.url r2
    /\ StitchResult.width r1 = StitchResult.width r2
    /\ StitchResult.height r1 = StitchResult.height r2
    /\ exists c events1 events2,
         trace st1' = trace st1 ++ events1
         /\ trace st2' = trace st2 ++ events2
         /\ encoded events1 = [c]
         /\ encoded events2 = [c].
Proof.
  intros inputs st1 st2.
  eexists; eexists; eexists; eexists.
  split; [vm_compute; reflexivity|]. split; [vm_compute; reflexivity|].
  split; [discriminate|]. split; [discriminate|].
  eapply (repeated_call_same_pixels Sample.page inputs st1 _ st2 _);
    vm_compute; reflexivity.
Defined.

(** The EXIF step reads the file of the first upload and nothing else. *)
Lemma transferExif_first_file (env : Env) (u1 u2 : UploadedImage.t)
    (rest1 rest2 : list UploadedImage.t) :
  UploadedImage.file u1 = UploadedImage.file u2 ->
  transferExif env (u1 :: rest1) = transferExif env (u2 :: rest2).
Proof.
  intros H. destruct u1, u2. simpl in H. subst. reflexivity.
Qed.

(** C10. Two inputs whose uploads carry the same files, in the same order,
    make [stitchImages] do the same thing on the same page: same outcome
    (result or exception) and same state left.  The fields [id],
    [previewUrl], [width] and [height] of the uploads are never read. *)
Theorem result_depends_only_on_files (env : Env)
    (uploaded1 uploaded2 : list UploadedImage.t) (st : Browser) :
  map UploadedImage.file uploaded1 = map UploadedImage.file uploaded2 ->
  stitchImages env uploaded1 st = stitchImages env uploaded2 st.
Proof.
  intros H.
  destruct uploaded1 as [|u1 rest1], uploaded2 as [|u2 rest2];
    try discriminate; [reflexivity|].
  assert (Hload : map (fun u => loadImage env (UploadedImage.file u)) (u1 :: rest1)
                  = map (fun u => loadImage env (UploadedImage.file u)) (u2 :: rest2)).
  { rewrite <- (map_map UploadedImage.file (loadImage env) (u1 :: rest1)).
    rewrite <- (map_map UploadedImage.file (loadImage env) (u2 :: rest2)).
    rewrite H. reflexivity. }
  pose proof H as Hfiles. injection H as Hfile _.
  unfold stitchImages. cbn [List.length Nat.eqb].
  rewrite Hload, Hfiles, (transferExif_first_file env u1 u2 rest1 rest2 Hfile).
  reflexivity.
Qed.

Lemma result_depends_only_on_files_witness :
  let other := {| UploadedImage.id := "zzz";
                  UploadedImage.file := Sample.jpeg Byte.x01;
                  UploadedImage.previewUrl := "blob:elsewhere";
                  UploadedImage.width := 4096;
                  UploadedImage.height := 17 |} in
  stitchImages Sample.page [Sample.A; Sample.B] (Sample.fresh None)
  = stitchImages Sample.page [other; Sample.upload "y" (Sample.jpeg Byte.x02)]
      (Sample.fresh None).
Proof.
  intros other.
  apply (result_depends_only_on_files Sample.page [Sample.A; Sample.B]
           [other; Sample.upload "y" (Sample.jpeg Byte.x02)] (Sample.fresh None)).
  reflexivity.
Defined.

(** *** Dependence on the bytes alone *)

Lemma decodeAll_bytes (env : Env) :
  (forall f g, file_bytes f = file_bytes g -> decode env f = decode env g) ->
  forall files1 files2,
    map file_bytes files1 = map file_bytes files2 ->
    forall bitmaps1 bitmaps2,
      decodeAll env files1 = inr bitmaps1 ->
      decodeAll env files2 = inr bitmaps2 ->
      bitmaps1 = bitmaps2.
Proof.
  intros Hdec files1 files2 H bitmaps1 bitmaps2 D1 D2.
  apply decodeAll_values in D1. apply decodeAll_values in D2.
  assert (E : map (decode env) files1 = map (decode env) files2).
  { clear D1 D2. revert files2 H.
    induction files1 as [|f rest1 IH]; intros [|g rest2] H; try discriminate; [reflexivity|].
    simpl in H. injection H as Hfg Hrest.
    simpl. rewrite (Hdec f g Hfg), (IH rest2 Hrest). reflexivity. }
  rewrite E, D2 in D1. clear - D1. revert bitmaps2 D1.
  induction bitmaps1 as [|b rest IH]; intros [|b2 rest2] H; try discriminate; [reflexivity|].
  simpl in H. injection H as -> Hrest. f_equal. apply IH. exact Hrest.
Qed.

(** On a page whose decoder looks at the bytes of a file only, two inputs
    whose files have the same bytes, in the same order, give results of the
    same width and height and the same canvas to encode, whatever the other
    fields of the uploads, the MIME types of the files and the states of the
    page may be. *)
Theorem pixels_depend_only_on_bytes (env : Env)
    (uploaded1 uploaded2 : list UploadedImage.t)
    (st1 st1' st2 st2' : Browser) (r1 r2 : StitchResult.t) :
  (forall f g, file_bytes f = file_bytes g -> decode env f = decode env g) ->
  map (fun u => file_bytes (UploadedImage.file u)) uploaded1
  = map (fun u => file_bytes (UploadedImage.file u)) uploaded2 ->
  stitchImages env uploaded1 st1 = (Returned r1, st1') ->
  stitchImages env uploaded2 st2 = (Returned r2, st2') ->
  StitchResult.width r1 = StitchResult.width r2
  /\ StitchResult.height r1 = StitchResult.height r2
  /\ exists c events1 events2,
       trace st1' = trace st1 ++ events1
       /\ trace st2' = trace st2 ++ events2
       /\ encoded events1 = [c]
       /\ encoded events2 = [c].
Proof.
  intros Hdec Hbytes H1 H2.
  destruct uploaded1 as [|u1 rest1]; [discriminate|].
  destruct uploaded2 as [|u2 rest2]; [discriminate|].
  destruct (stitchImages_returned env u1 rest1 st1 st1' r1 H1)
    as (b1 & ev1 & f1 & sa1 & sb1 & ex1 & D1 & _ & T1 & E1 & _ & _ & _ & W1 & Hh1).
  destruct (stitchImages_returned env u2 rest2 st2 st2' r2 H2)
    as (b2 & ev2 & f2 & sa2 & sb2 & ex2 & D2 & _ & T2 & E2 & _ & _ & _ & W2 & Hh2).
  rewrite <- (map_map UploadedImage.file file_bytes (u1 :: rest1)) in Hbytes.
  rewrite <- (map_map UploadedImage.file file_bytes (u2 :: rest2)) in Hbytes.
  pose proof (decodeAll_bytes env Hdec _ _ Hbytes _ _ D1 D2) as Hsame. subst b2.
  split; [congruence|]. split; [congruence|].
  exists (stitched_canvas b1), ev1, ev2. repeat split; assumption.
Qed.

Lemma pixels_depend_only_on_bytes_witness :
  let inputs1 := [Sample.A; Sample.B] in
  let inputs2 := [Sample.upload "x" (Sample.png Byte.x01);
                  Sample.upload "y" (Sample.png Byte.x02)] in
  let st1 := Sample.fresh None in
  let st2 := Sample.fresh (Some (Sample.library Sample.tags)) in
  exists r1 st1' r2 st2',
    stitchImages Sample.page inputs1 st1 = (Returned r1, st1')
    /\ stitchImages Sample.page inputs2 st2 = (Returned r2, st2')
    /\ StitchResult.width r1 = StitchResult.width r2
    /\ StitchResult.height r1 = StitchResult.height r2
    /\ exists c events1 events2,
         trace st1' = trace st1 ++ events1
         /\ trace st2' = trace st2 ++ events2
         /\ encoded events1 = [c]
         /\ encoded events2 = [c].
Proof.
  intros inputs1 inputs2 st1 st2.
  eexists; eexists; eexists; eexists.
  split; [vm_compute; reflexivity|]. split; [vm_compute; reflexivity|].
  eapply (pixels_depend_only_on_bytes Sample.page inputs1 inputs2 st1 _ st2 _).
  - intros f g H. unfold Sample.page, decode, Sample.size_of, Sample.bitmap_of.
    rewrite H. reflexivity.
  - reflexivity.
  - vm_compute; reflexivity.
  - vm_compute; reflexivity.
Defined.

(** * More about the service and the page *)

(** ** Object URLs and the trace of a call *)

Lemma blob_url_inj (j k : nat) : blob_url j = blob_url k -> j = k.
Proof.
  unfold blob_url. intros H. simpl in H. injection H as H.
  apply DecimalNat.Unsigned.to_uint_inj.
  assert (E : Some (Nat.to_uint j) = Some (Nat.to_uint k)).
  { rewrite <- (NilEmpty.usu (Nat.to_uint j)), <- (NilEmpty.usu (Nat.to_uint k)), H.
    reflexivity. }
  injection E as E. exact E.
Qed.

Lemma url_events_app (l1 l2 : list Event) :
  url_events (l1 ++ l2) = url_events l1 ++ url_events l2.
Proof.
  induction l1 as [|e l1 IH]; simpl; [reflexivity|].
  destruct e; simpl; rewrite ?IH; reflexivity.
Qed.

Lemma files_read_app (l1 l2 : list Event) :
  files_read (l1 ++ l2) = files_read l1 ++ files_read l2.
Proof.
  induction l1 as [|e l1 IH]; simpl; [reflexivity|].
  destruct e; simpl; rewrite ?IH; reflexivity.
Qed.

Lemma advance_advance (st : Browser) (j k : nat) (e1 e2 : list Event) :
  advance (advance st j e1) k e2 = advance st (j + k) (e1 ++ e2).
Proof.
  unfold advance. simpl. rewrite Nat.add_assoc, app_assoc. reflexivity.
Qed.


Lemma loaded_src (bitmaps : list Bitmap) :
  forall m, map src (loaded m bitmaps) = blob_urls m (List.length bitmaps).
Proof.
  induction bitmaps as [|b rest IH]; intros m; simpl; [reflexivity|].
  rewrite IH. reflexivity.
Qed.

Lemma revoke_exact (loadedImages : list HTMLImageElement) :
  forall st,
    forEach loadedImages (fun i => revokeObjectURL (src i)) st
    = (Returned tt, logged st (map RevokeObjectURL (map src loadedImages))).
Proof.
  induction loadedImages as [|i rest IH]; intros st.
  - simpl. unfold ret, logged. rewrite app_nil_r. destruct st; reflexivity.
  - cbn [forEach]. unfold bind at 1, revokeObjectURL at 1, emit at 1. cbv beta iota.
    rewrite IH. unfold logged. simpl. rewrite <- app_assoc. reflexivity.
Qed.

(** The EXIF step returns, reads the first file and no other, and touches
    neither the object URLs nor the encoder. *)
Lemma transferExif_shape (env : Env) (u : UploadedImage.t) (rest : list UploadedImage.t)
    (stitchedDataUrl : string) (st : Browser) :
  exists finalDataUrl events,
    transferExif env (u :: rest) stitchedDataUrl st = (Returned finalDataUrl, logged st events)
    /\ url_events events = []
    /\ encoded events = []
    /\ files_read events = [UploadedImage.file u].
Proof.
  unfold transferExif, try_catch, bind, readFileAsDataURL, get_piexif, console,
    emit, settle, throw, ret, logged; simpl.
  destruct (readAsDataURL env (UploadedImage.file u)) as [e|data]; simpl.
  { eexists; eexists. split; [rewrite <- !app_assoc; reflexivity|]. repeat split. }
  destruct (window_piexif st) as [p|]; simpl.
  2:{ eexists; eexists. split; [rewrite <- !app_assoc; reflexivity|]. repeat split. }
  destruct (piexif_load p data) as [e|exifObj]; simpl.
  { eexists; eexists. split; [rewrite <- !app_assoc; reflexivity|]. repeat split. }
  destruct (Js.typeof exifObj =? "object"); simpl.
  2:{ eexists; eexists. split; [rewrite <- !app_assoc; reflexivity|]. repeat split. }
  destruct (piexif_dump p exifObj) as [e|exifBytes]; simpl.
  { eexists; eexists. split; [rewrite <- !app_assoc; reflexivity|]. repeat split. }
  destruct (piexif_insert p exifBytes stitchedDataUrl) as [e|finalDataUrl]; simpl.
  { eexists; eexists. split; [rewrite <- !app_assoc; reflexivity|]. repeat split. }
  eexists; eexists. split; [rewrite <- !app_assoc; reflexivity|]. repeat split.
Qed.

(** The call up to the request for the context, on an input that decodes. *)
Lemma stitchImages_planned (env : Env) (u : UploadedImage.t) (rest : list UploadedImage.t)
    (bitmaps : list Bitmap) (st : Browser) :
  decodeAll env (map UploadedImage.file (u :: rest)) = inr bitmaps ->
  stitchImages env (u :: rest) st
  = (if negb (getContext2d env (planned_canvas bitmaps))
     then throw (JsError "Could not get canvas context")
     else
       bind (emit (Encode (stitched_canvas bitmaps) "image/jpeg" 1))
         (fun _ =>
            bind (transferExif env (u :: rest) (stitched_url env bitmaps))
              (fun finalDataUrl =>
                 bind (emit (Fetch finalDataUrl))
                   (fun _ =>
                      bind (settle (fetchBlob env finalDataUrl))
                        (fun blob =>
                           bind createObjectURL
                             (fun url =>
                                bind (forEach (loaded (minted st) bitmaps)
                                        (fun img => revokeObjectURL (src img)))
                                  (fun _ =>
                                     ret {| StitchResult.blob := blob;
                                            StitchResult.url := url;
                                            StitchResult.width := target_width bitmaps;
                                            StitchResult.height :=
                                              Js.Math_round (total_height bitmaps) |})))))))
      (advance st (List.length (u :: rest))
         (load_events (minted st) (map UploadedImage.file (u :: rest))
          ++ [GetContext (planned_canvas bitmaps)])).
Proof.
  intros D.
  unfold stitchImages. cbn [List.length Nat.eqb].
  unfold bind at 1. rewrite loadImages_exact, D.
  destruct (decodeAll_cons env _ _ _ D) as (b & bs & -> & _).
  cbn [loaded]. unfold bind at 1. cbn [settle ret].
  rewrite calculateDrawData_closed.
  set (imgs := {| src := blob_url (minted st); decoded := b |} :: loaded (S (minted st)) bs).
  assert (Hdec : map decoded imgs = b :: bs).
  { subst imgs. simpl. rewrite loaded_decoded. reflexivity. }
  change (naturalWidth {| src := blob_url (minted st); decoded := b |})
    with (target_width (map decoded imgs)).
  change (set_height (set_width createCanvas (target_width (map decoded imgs)))
            (sum_from 0 (map (scaled (target_width (map decoded imgs))) (map decoded imgs))))
    with (planned_canvas (map decoded imgs)).
  rewrite paintCanvas_planned.
  change (sum_from 0 (map (scaled (target_width (map decoded imgs))) (map decoded imgs)))
    with (total_height (map decoded imgs)).
  rewrite Hdec.
  unfold bind at 1, emit at 1. cbv beta iota.
  unfold advance. cbn [minted trace window_piexif]. rewrite <- !app_assoc.
  reflexivity.
Qed.

(** The whole call, on an input that decodes: its outcome and the page it
    leaves, written out. *)
Lemma stitchImages_exact (env : Env) (u : UploadedImage.t) (rest : list UploadedImage.t)
    (bitmaps : list Bitmap) (st : Browser) :
  decodeAll env (map UploadedImage.file (u :: rest)) = inr bitmaps ->
  let n := List.length (u :: rest) in
  let before := load_events (minted st) (map UploadedImage.file (u :: rest))
                ++ [GetContext (planned_canvas bitmaps)] in
  let painted := before ++ [Encode (stitched_canvas bitmaps) "image/jpeg" 1] in
  if getContext2d env (planned_canvas bitmaps) then
    exists finalDataUrl events,
      transferExif env (u :: rest) (stitched_url env bitmaps) (advance st n painted)
      = (Returned finalDataUrl, logged (advance st n painted) events)
      /\ url_events events = []
      /\ encoded events = []
      /\ files_read events = [UploadedImage.file u]
      /\ stitchImages env (u :: rest) st
         = match fetchBlob env finalDataUrl with
           | inl e => (Threw e, advance st n (painted ++ events ++ [Fetch finalDataUrl]))
           | inr blob =>
               (Returned {| StitchResult.blob := blob;
                            StitchResult.url := blob_url (minted st + n);
                            StitchResult.width := target_width bitmaps;
                            StitchResult.height := Js.Math_round (total_height bitmaps) |},
                advance st (S n)
                  (painted ++ events
                   ++ [Fetch finalDataUrl; CreateObjectURL (blob_url (minted st + n))]
                   ++ map RevokeObjectURL (blob_urls (minted st) n)))
           end
  else
    stitchImages env (u :: rest) st
    = (Threw (JsError "Could not get canvas context"), advance st n before).
Proof.
  intros D n before painted.
  assert (Hlen : List.length bitmaps = n).
  { rewrite (decodeAll_length env _ _ D). apply length_map. }
  rewrite (stitchImages_planned env u rest bitmaps st D).
  fold n. fold before.
  destruct (getContext2d env (planned_canvas bitmaps)) eqn:G; cbn [negb]; [|reflexivity].
  destruct (transferExif_shape env u rest (stitched_url env bitmaps) (advance st n painted))
    as (final & ev & R & U & E & F).
  exists final, ev. split; [exact R|]. split; [exact U|]. split; [exact E|].
  split; [exact F|].
  unfold bind at 1, emit at 1. cbv beta iota.
  replace {| window_piexif := window_piexif (advance st n before);
             minted := minted (advance st n before);
             trace := trace (advance st n before)
                      ++ [Encode (stitched_canvas bitmaps) "image/jpeg" 1] |}
    with (advance st n painted)
    by (unfold advance; cbn [minted trace window_piexif]; subst painted;
        rewrite <- ?app_assoc; reflexivity).
  unfold bind at 1. rewrite R.
  unfold bind at 1, emit at 1. cbv beta iota.
  unfold bind at 1.
  destruct (fetchBlob env final) as [e|blob]; cbn [settle throw ret].
  - unfold throw. f_equal. unfold logged, advance. cbn [minted trace window_piexif].
    f_equal. rewrite <- ?app_assoc. reflexivity.
  - unfold bind at 1, createObjectURL at 1. cbv beta iota zeta.
    unfold bind at 1. rewrite revoke_exact, loaded_src, Hlen.
    unfold logged, advance, ret. cbn [minted trace window_piexif].
    f_equal. f_equal; [lia|]. rewrite <- ?app_assoc. reflexivity.
Qed.

Lemma url_events_load (files : list File) :
  forall m, url_events (load_events m files)
            = map CreateObjectURL (blob_urls m (List.length files)).
Proof.
  induction files as [|f rest IH]; intros m; simpl; [reflexivity|].
  rewrite IH. reflexivity.
Qed.

Lemma url_events_revokes (urls : list string) :
  url_events (map RevokeObjectURL urls) = map RevokeObjectURL urls.
Proof.
  induction urls as [|u rest IH]; simpl; [reflexivity|]. rewrite IH. reflexivity.
Qed.

Lemma files_read_load (files : list File) :
  forall m, files_read (load_events m files) = [].
Proof.
  induction files as [|f rest IH]; intros m; simpl; [reflexivity|]. apply IH.
Qed.

Lemma files_read_revokes (urls : list string) :
  files_read (map RevokeObjectURL urls) = [].
Proof.
  induction urls as [|u rest IH]; simpl; [reflexivity|]. exact IH.
Qed.

(** What every call does with object URLs and with the [FileReader]. *)
Lemma stitchImages_resources (env : Env) (uploadedImages : list UploadedImage.t)
    (st : Browser) :
  let n := List.length uploadedImages in
  exists o st' events,
    stitchImages env uploadedImages st = (o, st')
    /\ window_piexif st' = window_piexif st
    /\ trace st' = trace st ++ events
    /\ minted st' = match o with
                    | Returned _ => (minted st + S n)%nat
                    | Threw _ => (minted st + n)%nat
                    end
    /\ url_events events
       = map CreateObjectURL (blob_urls (minted st) n)
         ++ match o with
            | Returned r =>
                CreateObjectURL (StitchResult.url r)
                :: map RevokeObjectURL (blob_urls (minted st) n)
            | Threw _ => []
            end
    /\ (forall r, o = Returned r -> StitchResult.url r = blob_url (minted st + n))
    /\ files_read events
       = match uploadedImages with
         | [] => []
         | u :: _ =>
             match decodeAll env (map UploadedImage.file uploadedImages) with
             | inl _ => []
             | inr bitmaps =>
                 if getContext2d env (planned_canvas bitmaps) then [UploadedImage.file u]
                 else []
             end
         end.
Proof.
  intros n. destruct uploadedImages as [|u rest].
  { exists (Threw (JsError "No images to stitch")), st, []. simpl.
    rewrite app_nil_r, Nat.add_0_r. repeat split. discriminate. }
  destruct (decodeAll env (map UploadedImage.file (u :: rest))) as [e|bitmaps] eqn:D.
  { eexists; eexists; eexists. split.
    - unfold stitchImages. cbn [List.length Nat.eqb]. unfold bind at 1.
      rewrite loadImages_exact, D. reflexivity.
    - unfold advance. cbn [minted trace window_piexif].
      split; [reflexivity|]. split; [reflexivity|]. split; [reflexivity|].
      split; [rewrite url_events_load, length_map, app_nil_r; reflexivity|].
      split; [discriminate|]. apply files_read_load. }
  pose proof (stitchImages_exact env u rest bitmaps st D) as X. cbv zeta in X.
  destruct (getContext2d env (planned_canvas bitmaps)).
  - destruct X as (final & ev & _ & U & _ & F & R).
    destruct (fetchBlob env final) as [e|blob];
      (eexists; eexists; eexists; split; [exact R|]);
      unfold advance; cbn [minted trace window_piexif];
      (split; [reflexivity|]); (split; [reflexivity|]); (split; [reflexivity|]).
    + split; [|split; [discriminate|]].
      * rewrite !url_events_app, url_events_load, U, length_map. cbn [url_events app].
        rewrite ?app_nil_r. reflexivity.
      * rewrite !files_read_app, files_read_load, F. reflexivity.
    + split; [|split].
      * rewrite !url_events_app, url_events_load, U, length_map, url_events_revokes.
        cbn [url_events app]. rewrite ?app_nil_r. reflexivity.
      * intros r H. injection H as <-. reflexivity.
      * rewrite !files_read_app, files_read_load, F, files_read_revokes. reflexivity.
  - eexists; eexists; eexists. split; [exact X|].
    unfold advance; cbn [minted trace window_piexif].
    split; [reflexivity|]. split; [reflexivity|]. split; [reflexivity|].
    split; [|split; [discriminate|]].
    + rewrite !url_events_app, url_events_load, length_map. cbn [url_events app].
      rewrite ?app_nil_r. reflexivity.
    + rewrite !files_read_app, files_read_load. reflexivity.
Qed.

(** *** Liveness of object URLs *)

Lemma live_after_app (l1 l2 : list Event) (u : string) :
  forall alive, live_after (l1 ++ l2) u alive = live_after l2 u (live_after l1 u alive).
Proof.
  induction l1 as [|e l1 IH]; intros alive; simpl; [reflexivity|].
  destruct e; simpl; rewrite ?IH; reflexivity.
Qed.

Lemma live_after_url_events (events : list Event) (u : string) :
  forall alive, live_after events u alive = live_after (url_events events) u alive.
Proof.
  induction events as [|e rest IH]; intros alive; simpl; [reflexivity|].
  destruct e; simpl; rewrite ?IH; reflexivity.
Qed.

Lemma live_after_creates (urls : list string) (u : string) :
  forall alive,
    live_after (map CreateObjectURL urls) u alive
    = (alive || existsb (fun v => v =? u) urls)%bool.
Proof.
  induction urls as [|v rest IH]; intros alive; simpl.
  - rewrite orb_false_r. reflexivity.
  - rewrite IH, orb_assoc. reflexivity.
Qed.

Lemma live_after_revokes (urls : list string) (u : string) :
  forall alive,
    live_after (map RevokeObjectURL urls) u alive
    = (alive && negb (existsb (fun v => v =? u) urls))%bool.
Proof.
  induction urls as [|v rest IH]; intros alive; simpl.
  - rewrite andb_true_r. reflexivity.
  - rewrite IH, negb_orb, andb_assoc. reflexivity.
Qed.

Lemma existsb_eqb_In (urls : list string) (u : string) :
  existsb (fun v => v =? u) urls = true <-> In u urls.
Proof.
  rewrite existsb_exists. split.
  - intros (v & Hin & E). apply String.eqb_eq in E. subst. exact Hin.
  - intros Hin. exists u. split; [exact Hin|apply String.eqb_refl].
Qed.

Lemma in_blob_urls (u : string) (n : nat) :
  forall m, In u (blob_urls m n) <-> exists k, (m <= k < m + n)%nat /\ u = blob_url k.
Proof.
  induction n as [|n IH]; intros m; simpl.
  - split; [tauto|]. intros (k & Hk & _). lia.
  - rewrite IH. split.
    + intros [<-|(k & Hk & ->)]; [exists m|exists k]; split; (lia || reflexivity).
    + intros (k & Hk & ->). destruct (Nat.eq_dec k m) as [->|Hne]; [left; reflexivity|].
      right. exists k. split; [lia|reflexivity].
Qed.

Lemma serialised_load (files : list File) :
  forall m, serialised (load_events m files) = [].
Proof.
  induction files as [|f rest IH]; intros m; simpl; [reflexivity|]. apply IH.
Qed.

Lemma serialised_revokes (urls : list string) :
  serialised (map RevokeObjectURL urls) = [].
Proof.
  induction urls as [|u rest IH]; simpl; [reflexivity|]. exact IH.
Qed.

(** ** The service: failures, object URLs, EXIF *)

(** X4. If some file of a non-empty input does not decode, the call is
    rejected with the reason of the [error] event that the page fires
    first: it is the reason of a file of the input that does not decode,
    and no file that does not decode settles at an earlier tick; when one
    file only does not decode, it is the reason of that file.  By then the
    call has minted one object URL per file and asked the page to decode
    every file; it has done nothing else (no canvas, no encoding, no file
    read, no fetch) and it revokes none of the URLs. *)
Theorem load_failure_aborts (env : Env) (u : UploadedImage.t)
    (rest : list UploadedImage.t) (st : Browser) (e : Thrown) :
  decodeAll env (map UploadedImage.file (u :: rest)) = inl e ->
  stitchImages env (u :: rest) st
  = (Threw e,
     {| window_piexif := window_piexif st;
        minted := minted st + List.length (u :: rest);
        trace := trace st ++ load_events (minted st) (map UploadedImage.file (u :: rest)) |})
  /\ exists i f,
       nth_error (map UploadedImage.file (u :: rest)) i = Some f
       /\ decode env f = inl e
       /\ forall j g e',
            nth_error (map UploadedImage.file (u :: rest)) j = Some g ->
            decode env g = inl e' ->
            (settles_at env (map UploadedImage.file (u :: rest)) i
             <= settles_at env (map UploadedImage.file (u :: rest)) j)%nat.
Proof.
  intros D. split.
  - unfold stitchImages. cbn [List.length Nat.eqb]. unfold bind at 1.
    rewrite loadImages_exact, D. reflexivity.
  - unfold decodeAll in D.
    set (files := map UploadedImage.file (u :: rest)) in *.
    destruct (race (settles_at env files) 0 (map (decode env) files))
      as [[t e0]|bitmaps] eqn:R; [|discriminate].
    injection D as ->.
    destruct (race_first _ _ _ _ _ R) as (k & Hk & Ht & Hmin).
    rewrite nth_error_map in Hk.
    destruct (nth_error files k) as [f|] eqn:Hf; [|discriminate].
    cbn [option_map] in Hk. injection Hk as Hk.
    exists k, f. split; [exact Hf|]. split; [exact Hk|].
    intros j g e' Hg He'. cbn [Nat.add] in Ht, Hmin. rewrite <- Ht.
    apply (Hmin j e'). rewrite nth_error_map, Hg. cbn [option_map]. rewrite He'.
    reflexivity.
Qed.

Lemma load_failure_aborts_witness :
  let slow := Sample.upload "q" (Sample.jpeg Byte.xff) in
  let quick := Sample.upload "r" (Sample.png Byte.xfe) in
  let files := map UploadedImage.file [Sample.A; slow; quick] in
  let st := Sample.fresh None in
  stitchImages Sample.reversed [Sample.A; slow; quick] st
  = (Threw (Rejection "image/png"),
     {| window_piexif := None;
        minted := 3;
        trace := [CreateObjectURL "blob:0"; Decode (Sample.jpeg Byte.x01);
                  CreateObjectURL "blob:1"; Decode (Sample.jpeg Byte.xff);
                  CreateObjectURL "blob:2"; Decode (Sample.png Byte.xfe)] |})
  /\ exists i f,
       nth_error files i = Some f
       /\ decode Sample.reversed f = inl (Rejection "image/png")
       /\ forall j g e',
            nth_error files j = Some g ->
            decode Sample.reversed g = inl e' ->
            (settles_at Sample.reversed files i <= settles_at Sample.reversed files j)%nat.
Proof.
  intros slow quick files st.
  apply (load_failure_aborts Sample.reversed Sample.A [slow; quick] st
           (Rejection "image/png")).
  reflexivity.
Defined.

(** X5. A call that returns has minted one object URL per image and one
    more, which is the [url] of the result; it has revoked every one of the
    former, after minting the latter, and nothing else.  So, whatever was
    live before, the URL of the result is live afterwards and none of the
    loading URLs is. *)
Theorem returned_call_revokes_loading_urls (env : Env)
    (uploadedImages : list UploadedImage.t) (st st' : Browser) (r : StitchResult.t) :
  stitchImages env uploadedImages st = (Returned r, st') ->
  let n := List.length uploadedImages in
  minted st' = (minted st + S n)%nat
  /\ StitchResult.url r = blob_url (minted st + n)
  /\ exists events,
       trace st' = trace st ++ events
       /\ url_events events
          = map CreateObjectURL (blob_urls (minted st) n)
            ++ CreateObjectURL (StitchResult.url r)
            :: map RevokeObjectURL (blob_urls (minted st) n)
       /\ (forall alive, live_after events (StitchResult.url r) alive = true)
       /\ (forall u alive, In u (blob_urls (minted st) n) -> live_after events u alive = false).
Proof.
  intros H n.
  destruct (stitchImages_resources env uploadedImages st)
    as (o & st1 & events & R & _ & T & Hm & U & Hu & _).
  rewrite H in R. injection R as <- <-. fold n in Hm, U, Hu.
  split; [exact Hm|]. pose proof (Hu r eq_refl) as Hurl. split; [exact Hurl|].
  exists events. split; [exact T|]. split; [exact U|].
  assert (Hnot : existsb (fun v => v =? StitchResult.url r) (blob_urls (minted st) n) = false).
  { apply not_true_is_false. rewrite existsb_eqb_In, in_blob_urls, Hurl.
    intros (k & Hk & E). apply blob_url_inj in E. lia. }
  split.
  - intros alive. rewrite live_after_url_events, U, live_after_app. simpl.
    rewrite live_after_revokes, Hnot, String.eqb_refl, orb_true_r. reflexivity.
  - intros u alive Hin. rewrite live_after_url_events, U, live_after_app. simpl.
    rewrite live_after_revokes.
    apply existsb_eqb_In in Hin. rewrite Hin. apply andb_false_r.
Qed.

Lemma returned_call_revokes_loading_urls_witness :
  exists r st',
    stitchImages Sample.page [Sample.A; Sample.B; Sample.C] (Sample.fresh None)
    = (Returned r, st')
    /\ minted st' = 4%nat
    /\ StitchResult.url r = blob_url 3
    /\ exists events,
         trace st' = [] ++ events
         /\ url_events events
            = map CreateObjectURL (blob_urls 0 3)
              ++ CreateObjectURL (StitchResult.url r)
              :: map RevokeObjectURL (blob_urls 0 3)
         /\ (forall alive, live_after events (StitchResult.url r) alive = true)
         /\ (forall u alive, In u (blob_urls 0 3) -> live_after events u alive = false).
Proof.
  eexists; eexists. split; [vm_compute; reflexivity|].
  eapply (returned_call_revokes_loading_urls Sample.page [Sample.A; Sample.B; Sample.C]
            (Sample.fresh None)).
  vm_compute; reflexivity.
Defined.

(** X6. A call that throws revokes nothing: the object URLs that it minted,
    one per image of the input, are all still live afterwards, whatever made
    it throw (an image that does not decode, no canvas context, a failed
    fetch). *)
Theorem thrown_call_leaks_loading_urls (env : Env)
    (uploadedImages : list UploadedImage.t) (st st' : Browser) (e : Thrown) :
  stitchImages env uploadedImages st = (Threw e, st') ->
  let n := List.length uploadedImages in
  minted st' = (minted st + n)%nat
  /\ exists events,
       trace st' = trace st ++ events
       /\ url_events events = map CreateObjectURL (blob_urls (minted st) n)
       /\ (forall u alive, In u (blob_urls (minted st) n) -> live_after events u alive = true).
Proof.
  intros H n.
  destruct (stitchImages_resources env uploadedImages st)
    as (o & st1 & events & R & _ & T & Hm & U & _ & _).
  rewrite H in R. injection R as <- <-. fold n in Hm, U. rewrite app_nil_r in U.
  split; [exact Hm|]. exists events. split; [exact T|]. split; [exact U|].
  intros u alive Hin. rewrite live_after_url_events, U, live_after_creates.
  apply existsb_eqb_In in Hin. rewrite Hin. apply orb_true_r.
Qed.

Lemma thrown_call_leaks_loading_urls_witness :
  let broken := Sample.upload "q" (Sample.jpeg Byte.xff) in
  exists e st',
    stitchImages Sample.page [Sample.A; broken] (Sample.fresh None) = (Threw e, st')
    /\ minted st' = 2%nat
    /\ exists events,
         trace st' = [] ++ events
         /\ url_events events = map CreateObjectURL (blob_urls 0 2)
         /\ (forall u alive, In u (blob_urls 0 2) -> live_after events u alive = true).
Proof.
  intros broken. eexists; eexists. split; [vm_compute; reflexivity|].
  eapply (thrown_call_leaks_loading_urls Sample.page [Sample.A; broken] (Sample.fresh None)).
  vm_compute; reflexivity.
Defined.

(** X7. The [FileReader] is used at most once in a call, and only on the
    file of the first upload: once when the input decodes and the canvas
    gets a context, never otherwise. *)
Theorem only_first_file_is_read (env : Env) (uploadedImages : list UploadedImage.t)
    (st : Browser) :
  exists o st' events,
    stitchImages env uploadedImages st = (o, st')
    /\ trace st' = trace st ++ events
    /\ files_read events
       = match uploadedImages with
         | [] => []
         | u :: _ =>
             match decodeAll env (map UploadedImage.file uploadedImages) with
             | inl _ => []
             | inr bitmaps =>
                 if getContext2d env (planned_canvas bitmaps) then [UploadedImage.file u]
                 else []
             end
         end.
Proof.
  destruct (stitchImages_resources env uploadedImages st)
    as (o & st' & events & R & _ & T & _ & _ & _ & F).
  exists o, st', events. repeat split; assumption.
Qed.

Lemma transferExif_success (env : Env) (u : UploadedImage.t) (rest : list UploadedImage.t)
    (st : Browser) (p : Piexif) (data : string) (exifObj : Js.value)
    (exifBytes stitchedDataUrl finalDataUrl : string) :
  window_piexif st = Some p ->
  readAsDataURL env (UploadedImage.file u) = inr data ->
  piexif_load p data = inr exifObj ->
  Js.typeof exifObj = "object" ->
  piexif_dump p exifObj = inr exifBytes ->
  piexif_insert p exifBytes stitchedDataUrl = inr finalDataUrl ->
  transferExif env (u :: rest) stitchedDataUrl st
  = (Returned finalDataUrl,
     logged st [ReadFile (UploadedImage.file u); PiexifLoad data; PiexifDump exifObj;
                PiexifInsert exifBytes stitchedDataUrl;
                Console Log "EXIF data successfully transferred." None]).
Proof.
  intros P R L T D I.
  unfold transferExif, try_catch, bind, readFileAsDataURL, get_piexif, console,
    emit, settle, throw, ret, logged; simpl.
  rewrite R; simpl. rewrite P; simpl. rewrite L; simpl. rewrite T; simpl.
  rewrite D; simpl. rewrite I; simpl. rewrite <- !app_assoc. reflexivity.
Qed.

(** X8. When the library is present, the first file is read, [load]
    returns an object, and [dump] and [insert] return, the call fetches the
    data URL that [insert] returned: the blob of the result is the blob of
    that URL, not of the stitched one.  The block serialised is the value
    that [load] returned, and it is spliced into the data URL that the canvas
    was encoded to; [dump] and [insert] are called once each. *)
Theorem metadata_is_transplanted (env : Env) (u : UploadedImage.t)
    (rest : list UploadedImage.t) (st : Browser) (bitmaps : list Bitmap)
    (p : Piexif) (data : string) (exifObj : Js.value) (exifBytes finalDataUrl : string)
    (blob : Blob) :
  decodeAll env (map UploadedImage.file (u :: rest)) = inr bitmaps ->
  getContext2d env (planned_canvas bitmaps) = true ->
  window_piexif st = Some p ->
  readAsDataURL env (UploadedImage.file u) = inr data ->
  piexif_load p data = inr exifObj ->
  Js.typeof exifObj = "object" ->
  piexif_dump p exifObj = inr exifBytes ->
  piexif_insert p exifBytes (toDataURL env (stitched_canvas bitmaps) "image/jpeg" 1)
  = inr finalDataUrl ->
  fetchBlob env finalDataUrl = inr blob ->
  exists r st' events,
    stitchImages env (u :: rest) st = (Returned r, st')
    /\ StitchResult.blob r = blob
    /\ trace st' = trace st ++ events
    /\ serialised events
       = [PiexifDump exifObj;
          PiexifInsert exifBytes (toDataURL env (stitched_canvas bitmaps) "image/jpeg" 1)]
    /\ In (Fetch finalDataUrl) events.
Proof.
  intros D G P R L T Dm I B.
  pose proof (stitchImages_exact env u rest bitmaps st D) as X. cbv zeta in X.
  rewrite G in X. destruct X as (final & ev & Rx & _ & _ & _ & Rs).
  unfold stitched_url in Rx.
  rewrite (transferExif_success env u rest _ p data exifObj exifBytes _ finalDataUrl
             (P : window_piexif (advance st _ _) = Some p) R L T Dm I) in Rx.
  injection Rx as <- Hev. apply app_inv_head in Hev. subst ev.
  rewrite B in Rs.
  eexists; eexists; eexists. split; [exact Rs|]. split; [reflexivity|].
  unfold advance. cbn [trace]. split; [reflexivity|]. split.
  - rewrite !serialised_app, serialised_load, serialised_revokes. reflexivity.
  - apply in_or_app. right. apply in_or_app. right. apply in_or_app. left.
    left. reflexivity.
Qed.

Lemma metadata_is_transplanted_witness :
  let st := Sample.fresh (Some (Sample.library Sample.tags)) in
  let bitmaps := [Sample.bitmap_of (Sample.jpeg Byte.x01) 800 600;
                  Sample.bitmap_of (Sample.jpeg Byte.x02) 400 400] in
  exists r st' events,
    stitchImages Sample.page [Sample.A; Sample.B] st = (Returned r, st')
    /\ StitchResult.blob r
       = {| blob_type := "image/jpeg";
            blob_bytes := list_byte_of_string "data:image/jpeg;base64,STITCHED+Exif" |}
    /\ trace st' = trace st ++ events
    /\ serialised events
       = [PiexifDump Sample.tags;
          PiexifInsert "Exif" (toDataURL Sample.page (stitched_canvas bitmaps) "image/jpeg" 1)]
    /\ In (Fetch "data:image/jpeg;base64,STITCHED+Exif") events.
Proof.
  intros st bitmaps.
  apply (metadata_is_transplanted Sample.page Sample.A [Sample.B] st bitmaps
           (Sample.library Sample.tags) "data:image/jpeg;base64,SOURCE" Sample.tags "Exif"
           "data:image/jpeg;base64,STITCHED+Exif");
    reflexivity.
Defined.

(** ** The page: what the handlers do *)

Section Handlers.

Variable host : Host.

Lemma uploads_exact (files : list File) :
  forall page,
    pmap (fun file =>
            pbind (randomId host)
              (fun id =>
                 pbind (lift createObjectURL)
                   (fun previewUrl =>
                      pret {| UploadedImage.id := id;
                              UploadedImage.file := file;
                              UploadedImage.previewUrl := previewUrl;
                              UploadedImage.width := 0;
                              UploadedImage.height := 0 |})))
         files page
    = (Returned (uploads host (randoms page) (minted (browser page)) files),
       {| app := app page;
          browser := advance (browser page) (List.length files)
                       (map CreateObjectURL
                          (blob_urls (minted (browser page)) (List.length files)));
          randoms := randoms page + List.length files;
          alerts := alerts page;
          timers := timers page;
          downloads := downloads page;
          isDragging := isDragging page;
          inputValue := inputValue page |}).
Proof.
  induction files as [|f rest IH]; intros page.
  - simpl. unfold pret, advance. rewrite Nat.add_0_r, Nat.add_0_r, app_nil_r.
    destruct page as [a [w m t] r al ti d g v]; reflexivity.
  - cbn [pmap]. unfold pbind at 1. unfold pbind at 1, randomId at 1.
    unfold pbind at 1, lift at 1, createObjectURL at 1. cbv beta iota zeta.
    cbn [browser with_browser app randoms alerts timers downloads isDragging inputValue].
    unfold pret at 1. unfold pbind at 1. rewrite IH.
    cbn [browser app randoms alerts timers downloads isDragging inputValue minted trace
         window_piexif].
    unfold pret, advance, with_browser. simpl. f_equal.
    f_equal; [|lia]. f_equal; [lia|]. rewrite <- app_assoc. reflexivity.
Qed.

Lemma handleFilesSelected_exact (files : list File) (page : Page) :
  handleFilesSelected host files page
  = (Returned tt,
     {| app := {| App.images := App.images (app page)
                                ++ uploads host (randoms page) (minted (browser page)) files;
                  App.isProcessing := App.isProcessing (app page);
                  App.result := None |};
        browser := advance (browser page) (List.length files)
                     (map CreateObjectURL
                        (blob_urls (minted (browser page)) (List.length files)));
        randoms := randoms page + List.length files;
        alerts := alerts page;
        timers := timers page;
        downloads := downloads page;
        isDragging := isDragging page;
        inputValue := inputValue page |}).
Proof.
  unfold handleFilesSelected. unfold pbind at 1. rewrite uploads_exact. reflexivity.
Qed.

End Handlers.

(** ** Reordering: [moveImage] *)

Lemma array_get_middle {A} (l1 l2 : list (option A)) (x : option A) :
  array_get (l1 ++ x :: l2) (List.length l1) = x.
Proof.
  unfold array_get. rewrite nth_error_app2 by lia. rewrite Nat.sub_diag. reflexivity.
Qed.

Lemma array_set_middle {A} (l1 l2 : list (option A)) (x v : option A) :
  array_set (l1 ++ x :: l2) (List.length l1) v = l1 ++ v :: l2.
Proof.
  unfold array_set.
  assert (H : (List.length l1 <? List.length (l1 ++ x :: l2))%nat = true).
  { apply Nat.ltb_lt. rewrite length_app. simpl. lia. }
  rewrite H.
  rewrite firstn_app, Nat.sub_diag, firstn_all, app_nil_r.
  replace (S (List.length l1)) with (List.length (l1 ++ [x])) by (rewrite length_app; simpl; lia).
  replace (l1 ++ x :: l2) with ((l1 ++ [x]) ++ l2) by (rewrite <- app_assoc; reflexivity).
  rewrite skipn_app, Nat.sub_diag, skipn_all, app_nil_l. reflexivity.
Qed.

Lemma defined_some {A} (l : list A) : defined (map Some l) = Some l.
Proof.
  induction l as [|x rest IH]; simpl; [reflexivity|]. rewrite IH. reflexivity.
Qed.

Lemma defined_undefined {A} (a : list (option A)) : In None a -> defined a = None.
Proof.
  induction a as [|x rest IH]; intros H; simpl; [destruct H|].
  destruct x as [x|]; [|reflexivity].
  destruct H as [H|H]; [discriminate|]. rewrite (IH H). reflexivity.
Qed.

Lemma array_get_at {A} (l1 l2 : list (option A)) (x : option A) (i : nat) :
  i = List.length l1 -> array_get (l1 ++ x :: l2) i = x.
Proof. intros ->. apply array_get_middle. Qed.

Lemma array_set_at {A} (l1 l2 : list (option A)) (x v : option A) (i : nat) :
  i = List.length l1 -> array_set (l1 ++ x :: l2) i v = l1 ++ v :: l2.
Proof. intros ->. apply array_set_middle. Qed.

Lemma swap_in_array (s1 s2 : list (option UploadedImage.t)) (x y : option UploadedImage.t)
    (i j : nat) :
  i = List.length s1 -> j = S (List.length s1) ->
  array_get (s1 ++ x :: y :: s2) i = x
  /\ array_get (s1 ++ x :: y :: s2) j = y
  /\ (forall v w, array_set (array_set (s1 ++ x :: y :: s2) i v) j w = s1 ++ v :: w :: s2)
  /\ (forall v w, array_set (array_set (s1 ++ x :: y :: s2) j w) i v = s1 ++ v :: w :: s2).
Proof.
  intros Hi Hj.
  assert (Hx : forall v w : option UploadedImage.t,
             s1 ++ v :: w :: s2 = (s1 ++ [v]) ++ w :: s2).
  { intros v w. rewrite <- app_assoc. reflexivity. }
  assert (Hl : forall v : option UploadedImage.t, j = List.length (s1 ++ [v])).
  { intros v. rewrite length_app. simpl. lia. }
  split; [apply array_get_at; exact Hi|].
  split; [rewrite Hx; apply array_get_at, Hl|].
  split; intros v w.
  - rewrite (array_set_at s1 (y :: s2) x v i Hi), Hx.
    rewrite (array_set_at (s1 ++ [v]) s2 y w j (Hl v)), <- app_assoc. reflexivity.
  - rewrite Hx, (array_set_at (s1 ++ [x]) s2 y w j (Hl x)), <- app_assoc. cbn [app].
    apply array_set_at. exact Hi.
Qed.

Lemma movedImages_down (l1 l2 : list UploadedImage.t) (a b : UploadedImage.t) :
  movedImages (l1 ++ a :: b :: l2) (List.length l1) down
  = Some (map Some (l1 ++ b :: a :: l2)).
Proof.
  unfold movedImages.
  assert (G : (S (List.length l1) =? List.length (l1 ++ a :: b :: l2))%nat = false).
  { apply Nat.eqb_neq. rewrite length_app. simpl. lia. }
  rewrite G. cbv zeta. rewrite !map_app. cbn [map].
  destruct (swap_in_array (map Some l1) (map Some l2) (Some a) (Some b)
              (List.length l1) (List.length l1 + 1)) as (E1 & E2 & E3 & _).
  { rewrite length_map. reflexivity. }
  { rewrite length_map. lia. }
  rewrite E1, E2, E3. reflexivity.
Qed.

Lemma movedImages_up (l1 l2 : list UploadedImage.t) (a b : UploadedImage.t) :
  movedImages (l1 ++ a :: b :: l2) (S (List.length l1)) up
  = Some (map Some (l1 ++ b :: a :: l2)).
Proof.
  unfold movedImages. cbn [Nat.eqb]. cbv zeta. rewrite !map_app. cbn [map].
  destruct (swap_in_array (map Some l1) (map Some l2) (Some a) (Some b)
              (S (List.length l1) - 1) (S (List.length l1))) as (E1 & E2 & _ & E4).
  { rewrite length_map. lia. }
  { rewrite length_map. reflexivity. }
  rewrite E1, E2, E4. reflexivity.
Qed.

Lemma split_two {A} (l : list A) :
  forall index, (S index < List.length l)%nat ->
  exists l1 a b l2, l = l1 ++ a :: b :: l2 /\ List.length l1 = index.
Proof.
  induction l as [|x rest IH]; intros index H; simpl in H; [lia|].
  destruct index as [|index].
  - destruct rest as [|y rest]; simpl in H; [lia|]. exists [], x, y, rest. split; reflexivity.
  - destruct (IH index) as (l1 & a & b & l2 & -> & Hl); [lia|].
    exists (x :: l1), a, b, l2. split; [reflexivity|]. simpl. rewrite Hl. reflexivity.
Qed.

Lemma array_get_outside {A} (a : list (option A)) (i : nat) :
  (List.length a <= i)%nat -> array_get a i = None.
Proof.
  intros H. unfold array_get. apply nth_error_None in H. rewrite H. reflexivity.
Qed.

Lemma movedImages_outside (images : list UploadedImage.t) (index : nat)
    (direction : Direction) (newImages : list (option UploadedImage.t)) :
  (List.length images <= index)%nat ->
  movedImages images index direction = Some newImages ->
  In None newImages.
Proof.
  intros Hout H.
  unfold movedImages in H.
  set (N := map Some images) in *.
  assert (HN : List.length N = List.length images) by apply length_map.
  destruct direction.
  - destruct (index =? 0)%nat eqn:G; [discriminate|]. apply Nat.eqb_neq in G.
    injection H as <-.
    rewrite (array_get_outside N index) by lia.
    set (arr1 := array_set N index (array_get N (index - 1))).
    assert (H1 : List.length arr1 = S index).
    { unfold arr1, array_set.
      assert (F : (index <? List.length N)%nat = false) by (apply Nat.ltb_ge; lia).
      rewrite F, !length_app, repeat_length. simpl. lia. }
    unfold array_set.
    assert (T : (index - 1 <? List.length arr1)%nat = true) by (apply Nat.ltb_lt; lia).
    rewrite T. apply in_or_app. right. left. reflexivity.
  - destruct (S index =? List.length images)%nat eqn:G; [discriminate|].
    injection H as <-.
    rewrite (array_get_outside N index), (array_get_outside N (index + 1)) by lia.
    set (arr1 := array_set N index None).
    assert (H1 : List.length arr1 = S index).
    { unfold arr1, array_set.
      assert (F : (index <? List.length N)%nat = false) by (apply Nat.ltb_ge; lia).
      rewrite F, !length_app, repeat_length. simpl. lia. }
    unfold array_set.
    assert (F : (index + 1 <? List.length arr1)%nat = false) by (apply Nat.ltb_ge; lia).
    rewrite F. apply in_or_app. right. apply in_or_app. right. left. reflexivity.
Qed.

(** X9. [moveImage] tests the two ends of the list and nothing else.  For
    an index that is no row of the list, the array it builds for
    [setImages] holds an [undefined] entry, whichever the direction: it is
    no list of images. *)
Theorem move_outside_stores_undefined (images : list UploadedImage.t) (index : nat)
    (direction : Direction) (newImages : list (option UploadedImage.t)) :
  (List.length images <= index)%nat ->
  movedImages images index direction = Some newImages ->
  In None newImages /\ defined newImages = None.
Proof.
  intros Hout H.
  pose proof (movedImages_outside images index direction newImages Hout H) as Hin.
  split; [exact Hin|].
  apply defined_undefined. exact Hin.
Qed.

Lemma move_outside_stores_undefined_witness :
  movedImages [Sample.A; Sample.B] 2 up = Some [Some Sample.A; None; Some Sample.B]
  /\ In None [Some Sample.A; None; Some Sample.B]
  /\ defined [Some Sample.A; None; Some Sample.B] = None.
Proof.
  split; [reflexivity|].
  apply (move_outside_stores_undefined [Sample.A; Sample.B] 2 up); [simpl; lia|reflexivity].
Defined.

(** ** The handlers, written out *)

Lemma moveImage_exact (page : Page) (index : nat) (direction : Direction) :
  moveImage index direction page = inl (Returned tt, page)
  \/ (exists newImages,
        (List.length (App.images (app page)) <= index)%nat
        /\ In None newImages
        /\ moveImage index direction page = inr newImages)
  \/ exists l1 a b l2,
       App.images (app page) = l1 ++ a :: b :: l2
       /\ index = match direction with
                  | up => S (List.length l1)
                  | down => List.length l1
                  end
       /\ moveImage index direction page
          = inl (Returned tt,
                 with_app page {| App.images := l1 ++ b :: a :: l2;
                                  App.isProcessing := App.isProcessing (app page);
                                  App.result := None |}).
Proof.
  unfold moveImage.
  destruct (movedImages (App.images (app page)) index direction) as [arr|] eqn:M;
    [|left; reflexivity].
  destruct (le_lt_dec (List.length (App.images (app page))) index) as [Hout|Hin].
  { pose proof (movedImages_outside _ _ _ _ Hout M) as Hnone.
    rewrite (defined_undefined _ Hnone). right. left. exists arr. repeat split; assumption. }
  assert (Hsplit : exists l1 a b l2,
             App.images (app page) = l1 ++ a :: b :: l2
             /\ index = match direction with
                        | up => S (List.length l1)
                        | down => List.length l1
                        end).
  { unfold movedImages in M. destruct direction.
    - destruct (index =? 0)%nat eqn:G; [discriminate|]. apply Nat.eqb_neq in G.
      destruct (split_two (App.images (app page)) (index - 1)) as (l1 & a & b & l2 & E & L);
        [lia|].
      exists l1, a, b, l2. split; [exact E|lia].
    - destruct (S index =? List.length (App.images (app page)))%nat eqn:G; [discriminate|].
      apply Nat.eqb_neq in G.
      destruct (split_two (App.images (app page)) index) as (l1 & a & b & l2 & E & L);
        [lia|].
      exists l1, a, b, l2. split; [exact E|lia]. }
  destruct Hsplit as (l1 & a & b & l2 & E & Hi).
  right. right. exists l1, a, b, l2. split; [exact E|]. split; [exact Hi|].
  rewrite E in M. subst index.
  destruct direction; [rewrite movedImages_up in M|rewrite movedImages_down in M];
    injection M as <-; rewrite defined_some; reflexivity.
Qed.

Lemma clickArrow_exact (page : Page) (index : nat) (direction : Direction) :
  clickArrow index direction page = (Returned tt, page)
  \/ exists l1 a b l2,
       App.images (app page) = l1 ++ a :: b :: l2
       /\ index = match direction with
                  | up => S (List.length l1)
                  | down => List.length l1
                  end
       /\ clickArrow index direction page
          = (Returned tt,
             with_app page {| App.images := l1 ++ b :: a :: l2;
                              App.isProcessing := App.isProcessing (app page);
                              App.result := None |}).
Proof.
  unfold clickArrow.
  destruct (moveImage_exact page index direction)
    as [->|[(arr & _ & _ & ->)|(l1 & a & b & l2 & E & Hi & ->)]].
  - left. reflexivity.
  - left. reflexivity.
  - right. exists l1, a, b, l2. repeat split; assumption.
Qed.

Lemma removeImage_exact (id : string) (page : Page) :
  removeImage id page
  = (Returned tt,
     with_app
       (with_browser page
          match find (fun i => UploadedImage.id i =? id) (App.images (app page)) with
          | Some img => logged (browser page)
                          [RevokeObjectURL (UploadedImage.previewUrl img)]
          | None => browser page
          end)
       {| App.images := filter (fun i => negb (UploadedImage.id i =? id))
                          (App.images (app page));
          App.isProcessing := App.isProcessing (app page);
          App.result := None |}).
Proof.
  unfold removeImage, pbind, get_images, setImages, setResult, pret.
  destruct (find (fun i => UploadedImage.id i =? id) (App.images (app page))) as [img|];
    destruct page as [a [w m t] r al ti d g v]; reflexivity.
Qed.

Lemma revokePreviews_exact (images : list UploadedImage.t) :
  forall page,
    pforEach images (fun img => lift (revokeObjectURL (UploadedImage.previewUrl img))) page
    = (Returned tt,
       with_browser page
         (logged (browser page)
            (map RevokeObjectURL (map UploadedImage.previewUrl images)))).
Proof.
  induction images as [|i rest IH]; intros page.
  - simpl. unfold pret, with_browser, logged. rewrite app_nil_r.
    destruct page as [a [w m t] r al ti d g v]; reflexivity.
  - cbn [pforEach]. unfold pbind at 1, lift at 1, revokeObjectURL at 1, emit at 1.
    cbv beta iota zeta. rewrite IH. unfold with_browser, logged. simpl.
    rewrite <- app_assoc. reflexivity.
Qed.

Lemma clearAll_exact (page : Page) :
  clearAll true page
  = (Returned tt,
     with_app
       (with_browser page
          (logged (browser page)
             (map RevokeObjectURL
                (map UploadedImage.previewUrl (App.images (app page))))))
       {| App.images := [];
          App.isProcessing := App.isProcessing (app page);
          App.result := None |}).
Proof.
  unfold clearAll. unfold pbind at 1, get_images at 1. unfold pbind at 1.
  rewrite revokePreviews_exact. reflexivity.
Qed.

Section Job.

Variable host : Host.

Lemma stitchJob_exact (job : list UploadedImage.t) (page : Page) :
  stitchJob host job page
  = match stitchImages (host_env host) job (browser page) with
    | (Returned res, b) =>
        (Returned tt,
         with_app (with_browser page b)
           {| App.images := App.images (app page);
              App.isProcessing := false;
              App.result := Some res |})
    | (Threw e, b) =>
        (Returned tt,
         with_app
           {| app := app page;
              browser := logged b [Console Err "" (Some e)];
              randoms := randoms page;
              alerts := alerts page ++ ["Failed to stitch images. Please try again."];
              timers := timers page;
              downloads := downloads page;
              isDragging := isDragging page;
              inputValue := inputValue page |}
           {| App.images := App.images (app page);
              App.isProcessing := false;
              App.result := App.result (app page) |})
    end.
Proof.
  unfold stitchJob, pfinally, ptry_catch, pbind, lift, setResult, setIsProcessing, alert,
    console, emit.
  destruct (stitchImages (host_env host) job (browser page)) as [[res|e] b];
    destruct page as [a bb r al ti d g v]; reflexivity.
Qed.

End Job.

(** ** What holds throughout the use of the page *)

Lemma live_after_true_inv (events : list Event) (u : string) :
  forall alive, live_after events u alive = true ->
                alive = true \/ In (CreateObjectURL u) events.
Proof.
  induction events as [|e rest IH]; intros alive H; simpl in H; [left; exact H|].
  destruct e; try (destruct (IH _ H) as [Ha|Hin]; [left; exact Ha|right; right; exact Hin]).
  - destruct (IH _ H) as [Ha|Hin]; [|right; right; exact Hin].
    apply orb_true_iff in Ha. destruct Ha as [Ha|Ha]; [left; exact Ha|].
    apply String.eqb_eq in Ha. subst. right. left. reflexivity.
  - destruct (IH _ H) as [Ha|Hin]; [|right; right; exact Hin].
    apply andb_true_iff in Ha. left. apply Ha.
Qed.

Lemma live_created (events : list Event) (u : string) :
  live events u = true -> In (CreateObjectURL u) events.
Proof.
  intros H. destruct (live_after_true_inv events u false H) as [F|Hin];
    [discriminate|exact Hin].
Qed.

Lemma live_after_kept (events : list Event) (u : string) :
  ~ In (RevokeObjectURL u) events -> live_after events u true = true.
Proof.
  induction events as [|e rest IH]; intros H; simpl; [reflexivity|].
  assert (Hrest : ~ In (RevokeObjectURL u) rest) by (intros F; apply H; right; exact F).
  destruct e; try (apply IH; exact Hrest).
  destruct (u0 =? u) eqn:E.
  - apply String.eqb_eq in E. subst. exfalso. apply H. left. reflexivity.
  - simpl. apply IH. exact Hrest.
Qed.

Lemma live_extended (events more : list Event) (u : string) :
  live events u = true -> ~ In (RevokeObjectURL u) more -> live (events ++ more) u = true.
Proof.
  intros H Hno. unfold live in *. rewrite live_after_app, H. apply live_after_kept, Hno.
Qed.

Lemma in_url_events (events : list Event) (e : Event) :
  In e (url_events events) -> In e events.
Proof.
  induction events as [|x rest IH]; simpl; [tauto|].
  destruct x; simpl; intros H; try (right; apply IH; exact H);
    (destruct H as [H|H]; [left; exact H|right; apply IH; exact H]).
Qed.

Lemma revoke_in_url_events (events : list Event) (u : string) :
  In (RevokeObjectURL u) events -> In (RevokeObjectURL u) (url_events events).
Proof.
  induction events as [|x rest IH]; simpl; [tauto|].
  intros [H|H]; [subst; left; reflexivity|].
  destruct x; simpl; try (apply IH; exact H); right; apply IH; exact H.
Qed.

Lemma create_in_url_events (events : list Event) (u : string) :
  In (CreateObjectURL u) events -> In (CreateObjectURL u) (url_events events).
Proof.
  induction events as [|x rest IH]; simpl; [tauto|].
  intros [H|H]; [subst; left; reflexivity|].
  destruct x; simpl; try (apply IH; exact H); right; apply IH; exact H.
Qed.

Lemma NoDup_blob_urls (n : nat) : forall m, NoDup (blob_urls m n).
Proof.
  induction n as [|n IH]; intros m; simpl; constructor; [|apply IH].
  rewrite in_blob_urls. intros (k & Hk & E). apply blob_url_inj in E. lia.
Qed.

Lemma kept_previews_distinct (keep : UploadedImage.t -> bool) (images : list UploadedImage.t) :
  NoDup (map UploadedImage.previewUrl images) ->
  NoDup (map UploadedImage.previewUrl (filter keep images)).
Proof.
  intros Hdistinct. induction images as [|img rest IH]; simpl; [constructor|].
  inversion Hdistinct as [|? ? Hnot Hrest]; subst.
  destruct (keep img); simpl; [|exact (IH Hrest)].
  constructor; [|exact (IH Hrest)].
  intros Hin. apply Hnot. apply in_map_iff in Hin. destruct Hin as (other & E & Hother).
  apply in_map_iff. exists other. split; [exact E|]. apply filter_In in Hother. apply Hother.
Qed.

Lemma uploads_previews (host : Host) (files : list File) :
  forall r m, map UploadedImage.previewUrl (uploads host r m files)
              = blob_urls m (List.length files).
Proof.
  induction files as [|f rest IH]; intros r m; simpl; [reflexivity|].
  rewrite IH. reflexivity.
Qed.

Lemma uploads_files (host : Host) (files : list File) :
  forall r m, map UploadedImage.file (uploads host r m files) = files.
Proof.
  induction files as [|f rest IH]; intros r m; simpl; [reflexivity|].
  rewrite IH. reflexivity.
Qed.

Lemma uploads_accepted (host : Host) (files : list File) :
  Forall (fun f => String.prefix "image/" (file_type f) = true) files ->
  forall r m, Forall accepted (uploads host r m files).
Proof.
  induction 1 as [|f rest Hf Hrest IH]; intros r m; simpl; constructor.
  - repeat split. exact Hf.
  - apply IH.
Qed.

Lemma sound_loaded (piexif : option Piexif) : Sound (loaded_page piexif).
Proof.
  constructor; simpl; try constructor; try tauto; try discriminate.
Qed.

Lemma live_is_minted (page : Page) (u : string) :
  Sound page -> live (trace (browser page)) u = true ->
  exists k, (k < minted (browser page))%nat /\ u = blob_url k.
Proof.
  intros S H. apply (sound_minted page S). apply live_created. exact H.
Qed.

Lemma live_is_not_fresh (page : Page) (u : string) (n : nat) :
  Sound page -> live (trace (browser page)) u = true ->
  ~ In u (blob_urls (minted (browser page)) n).
Proof.
  intros S H Hin. destruct (live_is_minted page u S H) as (k & Hk & ->).
  apply in_blob_urls in Hin. destruct Hin as (k' & Hk' & E).
  apply blob_url_inj in E. lia.
Qed.

Lemma no_revoke_among_creates (urls : list string) (u : string) :
  ~ In (RevokeObjectURL u) (map CreateObjectURL urls).
Proof.
  intros H. apply in_map_iff in H. destruct H as (v & E & _). discriminate.
Qed.

Lemma sound_files (host : Host) (files : list File) (page : Page) :
  Sound page ->
  Forall (fun f => String.prefix "image/" (file_type f) = true) files ->
  Sound (snd (handleFilesSelected host files page)).
Proof.
  intros S V. rewrite handleFilesSelected_exact. cbn [snd].
  pose proof S as [Si St Sm Sd Sp Sr Sdl].
  constructor; cbn [app browser timers downloads App.images App.result advance trace minted].
  - apply Forall_app. split; [exact Si|apply uploads_accepted, V].
  - exact St.
  - intros u Hin. apply in_app_or in Hin. destruct Hin as [Hin|Hin].
    + destruct (Sm u Hin) as (k & Hk & ->). exists k. split; [lia|reflexivity].
    + apply in_map_iff in Hin. destruct Hin as (v & E & Hv). injection E as ->.
      apply in_blob_urls in Hv. destruct Hv as (k & Hk & ->). exists k.
      split; [lia|reflexivity].
  - rewrite map_app, uploads_previews. apply NoDup_app; [exact Sd|apply NoDup_blob_urls|].
    intros a Ha. apply in_map_iff in Ha. destruct Ha as (img & <- & Himg).
    apply (live_is_not_fresh page _ _ S), Sp, Himg.
  - intros img Hin. apply in_app_or in Hin. destruct Hin as [Hin|Hin].
    + apply live_extended; [apply Sp, Hin|apply no_revoke_among_creates].
    + unfold live. rewrite live_after_app, live_after_creates.
      apply orb_true_iff. right. apply existsb_eqb_In.
      rewrite <- (uploads_previews host files (randoms page)). apply in_map, Hin.
  - discriminate.
  - intros href download Hin. destruct (Sdl href download Hin) as [Hl Hn]. split.
    + apply live_extended; [exact Hl|apply no_revoke_among_creates].
    + rewrite map_app, uploads_previews. intros F. apply in_app_or in F.
      destruct F as [F|F]; [exact (Hn F)|]. exact (live_is_not_fresh page _ _ S Hl F).
Qed.

Lemma previews_agree (images : list UploadedImage.t) (x y : UploadedImage.t) :
  NoDup (map UploadedImage.previewUrl images) ->
  In x images -> In y images ->
  UploadedImage.previewUrl x = UploadedImage.previewUrl y -> x = y.
Proof.
  induction images as [|i rest IH]; simpl; intros N Hx Hy E; [destruct Hx|].
  inversion N as [|? ? Hnot Hrest]; subst.
  destruct Hx as [->|Hx], Hy as [->|Hy].
  - reflexivity.
  - exfalso. apply Hnot. rewrite E. apply in_map, Hy.
  - exfalso. apply Hnot. rewrite <- E. apply in_map, Hx.
  - apply IH; assumption.
Qed.

Lemma sound_remove (id : string) (page : Page) :
  Sound page -> Sound (snd (removeImage id page)).
Proof.
  intros S. rewrite removeImage_exact. cbn [snd].
  pose proof S as [Si St Sm Sd Sp Sr Sdl].
  set (kept := filter (fun i => negb (UploadedImage.id i =? id)) (App.images (app page))).
  assert (Hkept : forall img, In img kept -> In img (App.images (app page))
                                             /\ UploadedImage.id img <> id).
  { intros img H. apply filter_In in H. destruct H as [H E]. split; [exact H|].
    apply negb_true_iff, String.eqb_neq in E. exact E. }
  assert (Hsub : forall u, In u (map UploadedImage.previewUrl kept) ->
                           In u (map UploadedImage.previewUrl (App.images (app page)))).
  { intros u H. apply in_map_iff in H. destruct H as (img & <- & H).
    apply in_map, (Hkept img H). }
  destruct (find (fun i => UploadedImage.id i =? id) (App.images (app page)))
    as [found|] eqn:F.
  - apply find_some in F. destruct F as [Fin Fid]. apply String.eqb_eq in Fid.
    constructor;
      cbn [app browser timers downloads App.images App.result with_app with_browser
           logged trace minted].
    + apply Forall_forall. intros img H. apply (proj1 (Forall_forall _ _) Si), (Hkept img H).
    + exact St.
    + intros u Hin. apply in_app_or in Hin. destruct Hin as [Hin|[Hin|[]]];
        [exact (Sm u Hin)|discriminate].
    + apply kept_previews_distinct, Sd.
    + intros img H. destruct (Hkept img H) as [Hin Hid].
      apply live_extended; [apply Sp, Hin|].
      intros [E|[]]. injection E as E. apply Hid.
      rewrite <- (previews_agree _ _ _ Sd Fin Hin E). exact Fid.
    + discriminate.
    + intros href download Hin. destruct (Sdl href download Hin) as [Hl Hn]. split.
      * apply live_extended; [exact Hl|]. intros [E|[]]. injection E as <-.
        apply Hn, in_map, Fin.
      * intros H. apply Hn, Hsub, H.
  - constructor;
      cbn [app browser timers downloads App.images App.result with_app with_browser].
    + apply Forall_forall. intros img H. apply (proj1 (Forall_forall _ _) Si), (Hkept img H).
    + exact St.
    + exact Sm.
    + apply kept_previews_distinct, Sd.
    + intros img H. apply Sp, (Hkept img H).
    + discriminate.
    + intros href download Hin. destruct (Sdl href download Hin) as [Hl Hn].
      split; [exact Hl|]. intros H. apply Hn, Hsub, H.
Qed.

Lemma sound_move (index : nat) (direction : Direction) (page : Page) :
  Sound page -> Sound (snd (clickArrow index direction page)).
Proof.
  intros S. destruct (clickArrow_exact page index direction)
    as [->|(l1 & a & b & l2 & E & _ & ->)]; [exact S|].
  cbn [snd]. pose proof S as [Si St Sm Sd Sp Sr Sdl].
  assert (P : Permutation (App.images (app page)) (l1 ++ b :: a :: l2)).
  { rewrite E. apply Permutation_app_head, perm_swap. }
  constructor; cbn [app browser timers downloads App.images App.result with_app].
  - apply (Permutation_Forall P), Si.
  - exact St.
  - exact Sm.
  - apply (Permutation_NoDup (Permutation_map _ P)), Sd.
  - intros img H. apply Sp, (Permutation_in _ (Permutation_sym P) H).
  - discriminate.
  - intros href download Hin. destruct (Sdl href download Hin) as [Hl Hn].
    split; [exact Hl|]. intros H. apply Hn.
    apply (Permutation_in _ (Permutation_sym (Permutation_map _ P)) H).
Qed.

Lemma sound_clear (confirmed : bool) (page : Page) :
  Sound page -> Sound (snd (clearAll confirmed page)).
Proof.
  intros S. destruct confirmed; [|exact S]. rewrite clearAll_exact. cbn [snd].
  pose proof S as [Si St Sm Sd Sp Sr Sdl].
  constructor;
    cbn [app browser timers downloads App.images App.result with_app with_browser
         logged trace minted map].
  - constructor.
  - exact St.
  - intros u Hin. apply in_app_or in Hin. destruct Hin as [Hin|Hin]; [exact (Sm u Hin)|].
    apply in_map_iff in Hin. destruct Hin as (v & F & _). discriminate.
  - constructor.
  - intros img [].
  - discriminate.
  - intros href download Hin. destruct (Sdl href download Hin) as [Hl Hn].
    split; [|intros []]. apply live_extended; [exact Hl|].
    intros H. apply in_map_iff in H. destruct H as (v & E & Hv). injection E as ->.
    exact (Hn Hv).
Qed.

Lemma live_after_returned (events : list Event) (urls : list string) (x : string) :
  url_events events
  = map CreateObjectURL urls ++ CreateObjectURL x :: map RevokeObjectURL urls ->
  ~ In x urls ->
  forall alive, live_after events x alive = true.
Proof.
  intros U Hnot alive. rewrite live_after_url_events, U, live_after_app. simpl.
  rewrite live_after_revokes, String.eqb_refl, orb_true_r.
  assert (E : existsb (fun v => v =? x) urls = false).
  { apply not_true_is_false. rewrite existsb_eqb_In. exact Hnot. }
  rewrite E. reflexivity.
Qed.

Lemma sound_job (host : Host) (job : list UploadedImage.t) (page : Page) :
  Sound page -> Sound (snd (stitchJob host job page)).
Proof.
  intros S. rewrite stitchJob_exact.
  destruct (stitchImages_resources (host_env host) job (browser page))
    as (o & b' & events & R & _ & T & Hm & U & Hu & _).
  rewrite R. pose proof S as [Si St Sm Sd Sp Sr Sdl].
  set (m := minted (browser page)) in *. set (n := List.length job) in *.
  assert (Hold : forall u, live (trace (browser page)) u = true ->
                           ~ In (RevokeObjectURL u) events).
  { intros u Hl Hin. apply revoke_in_url_events in Hin. rewrite U in Hin.
    apply in_app_or in Hin. destruct Hin as [Hin|Hin].
    - exact (no_revoke_among_creates _ _ Hin).
    - destruct o as [r|e]; [|destruct Hin].
      destruct Hin as [Hin|Hin]; [discriminate|].
      apply in_map_iff in Hin. destruct Hin as (v & E & Hv). injection E as ->.
      exact (live_is_not_fresh page _ _ S Hl Hv). }
  assert (Hnew : forall u, In (CreateObjectURL u) events ->
                           exists k, (k < minted b')%nat /\ u = blob_url k).
  { intros u Hin. apply create_in_url_events in Hin. rewrite U in Hin.
    apply in_app_or in Hin. destruct Hin as [Hin|Hin].
    - apply in_map_iff in Hin. destruct Hin as (v & E & Hv). injection E as ->.
      apply in_blob_urls in Hv. destruct Hv as (k & Hk & ->). exists k.
      split; [|reflexivity]. rewrite Hm. destruct o; lia.
    - destruct o as [r|e]; [|destruct Hin].
      destruct Hin as [Hin|Hin].
      + injection Hin as <-. rewrite (Hu r eq_refl). exists (m + n)%nat.
        split; [rewrite Hm; lia|reflexivity].
      + apply in_map_iff in Hin. destruct Hin as (v & E & _). discriminate. }
  assert (Hmono : (m <= minted b')%nat) by (rewrite Hm; destruct o; lia).
  destruct o as [r|e]; cbn [snd];
    constructor;
    cbn [app browser timers downloads App.images App.result with_app with_browser
         logged trace minted];
    try exact Si; try exact St; try exact Sd.
  - intros u Hin. rewrite T in Hin. apply in_app_or in Hin. destruct Hin as [Hin|Hin].
    + destruct (Sm u Hin) as (k & Hk & ->). exists k. split; [lia|reflexivity].
    + exact (Hnew u Hin).
  - intros img Hin. rewrite T. apply live_extended; [apply Sp, Hin|apply Hold, Sp, Hin].
  - intros r0 E. injection E as <-.
    assert (Hfresh : ~ In (StitchResult.url r) (blob_urls m n)).
    { rewrite (Hu r eq_refl), in_blob_urls. intros (k & Hk & E).
      apply blob_url_inj in E. lia. }
    split.
    + rewrite T. unfold live. rewrite live_after_app.
      apply (live_after_returned events (blob_urls m n)); [exact U|exact Hfresh].
    + intros Hin. apply in_map_iff in Hin. destruct Hin as (img & E & Himg).
      destruct (live_is_minted page _ S (Sp img Himg)) as (k & Hk & E').
      rewrite E, (Hu r eq_refl) in E'. apply blob_url_inj in E'. fold m in Hk. lia.
  - intros href download Hin. destruct (Sdl href download Hin) as [Hl Hn].
    split; [|exact Hn]. rewrite T. apply live_extended; [exact Hl|apply Hold, Hl].
  - intros u Hin. rewrite T in Hin. apply in_app_or in Hin. destruct Hin as [Hin|[Hin|[]]];
      [|discriminate].
    apply in_app_or in Hin. destruct Hin as [Hin|Hin].
    + destruct (Sm u Hin) as (k & Hk & ->). exists k. split; [lia|reflexivity].
    + exact (Hnew u Hin).
  - intros img Hin. rewrite T.
    apply live_extended; [apply live_extended; [apply Sp, Hin|apply Hold, Sp, Hin]|].
    intros [F|[]]. discriminate.
  - intros r0 E. destruct (Sr r0 E) as [Hl Hn]. split; [|exact Hn]. rewrite T.
    apply live_extended; [apply live_extended; [exact Hl|apply Hold, Hl]|].
    intros [F|[]]. discriminate.
  - intros href download Hin. destruct (Sdl href download Hin) as [Hl Hn].
    split; [|exact Hn]. rewrite T.
    apply live_extended; [apply live_extended; [exact Hl|apply Hold, Hl]|].
    intros [F|[]]. discriminate.
Qed.

Lemma sound_timer (host : Host) (page : Page) :
  Sound page -> Sound (snd (timerFires host page)).
Proof.
  intros S. unfold timerFires. destruct (timers page) as [|job rest] eqn:E; [exact S|].
  apply sound_job. pose proof S as [Si St Sm Sd Sp Sr Sdl]. rewrite E in St.
  constructor; cbn [app browser timers downloads]; try assumption.
  inversion St. assumption.
Qed.

Lemma sound_stitch (page : Page) : Sound page -> Sound (snd (handleStitch page)).
Proof.
  intros S. unfold handleStitch, pbind, get_images, setIsProcessing, setTimeout, pret.
  destruct (App.images (app page)) as [|u rest] eqn:E; [exact S|].
  cbn [List.length Nat.eqb snd]. pose proof S as [Si St Sm Sd Sp Sr Sdl].
  rewrite E in *.
  constructor; cbn [app browser timers downloads App.images App.result with_app];
    try assumption.
  apply Forall_app. split; [exact St|]. constructor; [|constructor].
  split; [discriminate|exact Si].
Qed.

Lemma sound_download (now : N) (page : Page) :
  Sound page -> Sound (snd (handleDownload now page)).
Proof.
  intros S. unfold handleDownload, pbind, get_result, clickLink, pret.
  destruct (App.result (app page)) as [r|] eqn:E; [|exact S].
  cbn [snd]. pose proof S as [Si St Sm Sd Sp Sr Sdl].
  constructor; cbn [app browser timers downloads]; try assumption.
  intros href download Hin. apply in_app_or in Hin.
  destruct Hin as [Hin|[Hin|[]]]; [exact (Sdl href download Hin)|].
  injection Hin as <- _. exact (Sr r E).
Qed.

Lemma sound_dragging (b : bool) (page : Page) : Sound page -> Sound (snd (setIsDragging b page)).
Proof. intros [Si St Sm Sd Sp Sr Sdl]. constructor; assumption. Qed.

Lemma sound_input (v : string) (page : Page) : Sound page -> Sound (snd (setInputValue v page)).
Proof. intros [Si St Sm Sd Sp Sr Sdl]. constructor; assumption. Qed.

Lemma sound_alert (message : string) (page : Page) :
  Sound page -> Sound (snd (alert message page)).
Proof. intros [Si St Sm Sd Sp Sr Sdl]. constructor; assumption. Qed.

Lemma sound_handleFiles (host : Host) (files : list File) (page : Page) :
  Sound page -> Sound (snd (handleFiles (handleFilesSelected host) files page)).
Proof.
  intros S. unfold handleFiles.
  destruct (0 <? List.length (filter (fun file => String.prefix "image/" (file_type file))
                               files))%nat.
  - apply sound_files; [exact S|]. apply Forall_forall. intros f H.
    apply filter_In in H. apply H.
  - apply sound_alert, S.
Qed.

Lemma sound_act (host : Host) (page : Page) (a : Action) :
  Sound page -> Sound (act host page a).
Proof.
  intros S. unfold act. destruct a; cbn [handler].
  - apply sound_dragging, S.
  - apply sound_dragging, S.
  - unfold handleDrop. unfold pbind at 1, setIsDragging at 1.
    destruct (0 <? List.length files)%nat.
    + apply sound_handleFiles. apply (sound_dragging false page S).
    + apply (sound_dragging false page S).
  - unfold handleFileInput. unfold pbind at 1.
    destruct (0 <? List.length files)%nat.
    + pose proof (sound_handleFiles host files page S) as H.
      destruct (handleFiles (handleFilesSelected host) files page) as [[[]|e] page'];
        [apply sound_input|]; exact H.
    + apply sound_input, S.
  - apply sound_remove, S.
  - apply sound_move, S.
  - apply sound_stitch, S.
  - apply sound_timer, S.
  - apply sound_download, S.
  - apply sound_clear, S.
Qed.

Lemma sound_session (host : Host) (actions : list Action) :
  forall page, Sound page -> Sound (session host page actions).
Proof.
  induction actions as [|a rest IH]; intros page S; [exact S|].
  apply IH, sound_act, S.
Qed.

(** ** The component: reordering, removing, adding, clearing *)

Lemma moveImage_swap (page : Page) (l1 l2 : list UploadedImage.t)
    (a b : UploadedImage.t) :
  App.images (app page) = l1 ++ a :: b :: l2 ->
  let swapped := with_app page {| App.images := l1 ++ b :: a :: l2;
                                  App.isProcessing := App.isProcessing (app page);
                                  App.result := None |} in
  moveImage (List.length l1) down page = inl (Returned tt, swapped)
  /\ moveImage (S (List.length l1)) up page = inl (Returned tt, swapped).
Proof.
  intros E swapped. unfold moveImage. rewrite E.
  rewrite movedImages_down, movedImages_up, defined_some.
  split; reflexivity.
Qed.

(** X10. In a list [l1 ++ a :: b :: l2], moving [a] down and moving [b] up
    are the same operation: both leave [l1 ++ b :: a :: l2], clear the
    result and touch nothing else.  Moving the first row up or the last row
    down changes nothing at all; in particular the result is kept. *)
Theorem move_swaps_neighbours (page : Page) (l1 l2 : list UploadedImage.t)
    (a b : UploadedImage.t) :
  App.images (app page) = l1 ++ a :: b :: l2 ->
  let swapped := with_app page {| App.images := l1 ++ b :: a :: l2;
                                  App.isProcessing := App.isProcessing (app page);
                                  App.result := None |} in
  moveImage (List.length l1) down page = inl (Returned tt, swapped)
  /\ moveImage (S (List.length l1)) up page = inl (Returned tt, swapped)
  /\ moveImage 0 up page = inl (Returned tt, page)
  /\ moveImage (S (List.length l1 + List.length l2)) down page = inl (Returned tt, page).
Proof.
  intros E swapped.
  destruct (moveImage_swap page l1 l2 a b E) as [Hdown Hup].
  split; [exact Hdown|]. split; [exact Hup|].
  unfold moveImage. rewrite E.
  split; [reflexivity|].
  unfold movedImages.
  assert (G : (S (S (List.length l1 + List.length l2))
               =? List.length (l1 ++ a :: b :: l2))%nat = true).
  { apply Nat.eqb_eq. rewrite length_app. simpl. lia. }
  rewrite G. reflexivity.
Qed.

Lemma move_swaps_neighbours_witness :
  let page := with_app (loaded_page None)
                {| App.images := [Sample.A; Sample.B; Sample.C];
                   App.isProcessing := false;
                   App.result := None |} in
  let swapped := with_app page {| App.images := [Sample.A; Sample.C; Sample.B];
                                  App.isProcessing := false;
                                  App.result := None |} in
  moveImage 1 down page = inl (Returned tt, swapped)
  /\ moveImage 2 up page = inl (Returned tt, swapped)
  /\ moveImage 0 up page = inl (Returned tt, page)
  /\ moveImage 2 down page = inl (Returned tt, page).
Proof.
  intros page swapped.
  apply (move_swaps_neighbours page [Sample.A] [] Sample.B Sample.C). reflexivity.
Defined.

(** X11. Moving a row down and then moving it back up, or up and then back
    down, restores the order of the list; the result stays cleared. *)
Theorem move_round_trip (host : Host) (page : Page) (l1 l2 : list UploadedImage.t)
    (a b : UploadedImage.t) :
  App.images (app page) = l1 ++ a :: b :: l2 ->
  let there_and_back :=
    session host page [Move (List.length l1) down; Move (S (List.length l1)) up] in
  let back_and_there :=
    session host page [Move (S (List.length l1)) up; Move (List.length l1) down] in
  App.images (app there_and_back) = App.images (app page)
  /\ App.result (app there_and_back) = None
  /\ App.images (app back_and_there) = App.images (app page)
  /\ App.result (app back_and_there) = None.
Proof.
  intros E. cbn [session fold_left]. unfold act. cbn [handler]. unfold clickArrow.
  destruct (moveImage_swap page l1 l2 a b E) as (D & U). rewrite D, U.
  cbn [snd].
  set (swapped := with_app page {| App.images := l1 ++ b :: a :: l2;
                                   App.isProcessing := App.isProcessing (app page);
                                   App.result := None |}).
  destruct (moveImage_swap swapped l1 l2 b a eq_refl) as (D' & U').
  rewrite D', U'. cbn [snd with_app app App.images App.result]. rewrite E.
  repeat split.
Qed.

Lemma move_round_trip_witness :
  let host := {| host_env := Sample.page; random_id := fun _ => "id" |} in
  let page := with_app (loaded_page None)
                {| App.images := [Sample.A; Sample.B; Sample.C];
                   App.isProcessing := false;
                   App.result := None |} in
  App.images (app (session host page [Move 1 down; Move 2 up])) = [Sample.A; Sample.B; Sample.C]
  /\ App.result (app (session host page [Move 1 down; Move 2 up])) = None
  /\ App.images (app (session host page [Move 2 up; Move 1 down]))
     = [Sample.A; Sample.B; Sample.C]
  /\ App.result (app (session host page [Move 2 up; Move 1 down])) = None.
Proof.
  intros host page.
  apply (move_round_trip host page [Sample.A] [] Sample.B Sample.C). reflexivity.
Defined.

Lemma find_first (p : UploadedImage.t -> bool) (l1 l2 : list UploadedImage.t)
    (x : UploadedImage.t) :
  (forall y, In y l1 -> p y = false) -> p x = true -> find p (l1 ++ x :: l2) = Some x.
Proof.
  induction l1 as [|y rest IH]; intros H Hx; simpl.
  - rewrite Hx. reflexivity.
  - rewrite (H y (or_introl eq_refl)). apply IH; [|exact Hx].
    intros z Hz. apply H. right. exact Hz.
Qed.

Lemma filter_all (p : UploadedImage.t -> bool) (l : list UploadedImage.t) :
  (forall y, In y l -> p y = true) -> filter p l = l.
Proof.
  induction l as [|y rest IH]; intros H; simpl; [reflexivity|].
  rewrite (H y (or_introl eq_refl)), IH; [reflexivity|].
  intros z Hz. apply H. right. exact Hz.
Qed.

(** X12. When the ids of the listed uploads are distinct, removing a listed
    upload by its id takes exactly that upload out of the list, keeps the
    others in their order, revokes its preview URL and no other, and clears
    the result. *)
Theorem remove_listed_image (page : Page) (l1 l2 : list UploadedImage.t)
    (img : UploadedImage.t) :
  App.images (app page) = l1 ++ img :: l2 ->
  NoDup (map UploadedImage.id (App.images (app page))) ->
  removeImage (UploadedImage.id img) page
  = (Returned tt,
     with_app
       (with_browser page
          (logged (browser page) [RevokeObjectURL (UploadedImage.previewUrl img)]))
       {| App.images := l1 ++ l2;
          App.isProcessing := App.isProcessing (app page);
          App.result := None |}).
Proof.
  intros E N. rewrite removeImage_exact, E. rewrite E, map_app in N. cbn [map] in N.
  apply NoDup_remove_2 in N.
  assert (Hother : forall y, In y (l1 ++ l2) -> UploadedImage.id y <> UploadedImage.id img).
  { intros y Hy Eq. apply N. rewrite <- Eq, <- map_app. apply in_map, Hy. }
  rewrite (find_first _ l1 l2 img).
  - rewrite filter_app. cbn [filter]. rewrite String.eqb_refl. cbn [negb].
    rewrite (filter_all _ l1), (filter_all _ l2); [reflexivity| |];
      intros y Hy; apply negb_true_iff, String.eqb_neq, Hother, in_or_app; tauto.
  - intros y Hy. apply String.eqb_neq, Hother, in_or_app. left. exact Hy.
  - apply String.eqb_refl.
Qed.

Lemma remove_listed_image_witness :
  let page := with_app (loaded_page None)
                {| App.images := [Sample.A; Sample.B; Sample.C];
                   App.isProcessing := false;
                   App.result := None |} in
  removeImage "b" page
  = (Returned tt,
     with_app
       (with_browser page (logged (browser page) [RevokeObjectURL "blob:preview-b"]))
       {| App.images := [Sample.A; Sample.C];
          App.isProcessing := false;
          App.result := None |}).
Proof.
  intros page.
  apply (remove_listed_image page [Sample.A] [Sample.C] Sample.B); [reflexivity|].
  repeat constructor; simpl; intros H; repeat (destruct H as [H|H]; try discriminate);
    exact H.
Defined.

(** X13. Removing by an id that no listed upload carries leaves the list as
    it is and revokes nothing; the result is cleared all the same. *)
Theorem remove_unknown_id (page : Page) (id : string) :
  (forall img, In img (App.images (app page)) -> UploadedImage.id img <> id) ->
  removeImage id page
  = (Returned tt,
     with_app page {| App.images := App.images (app page);
                      App.isProcessing := App.isProcessing (app page);
                      App.result := None |}).
Proof.
  intros H. rewrite removeImage_exact.
  rewrite filter_all by (intros y Hy; apply negb_true_iff, String.eqb_neq, H, Hy).
  destruct (find (fun i => UploadedImage.id i =? id) (App.images (app page))) as [img|] eqn:F.
  - apply find_some in F. destruct F as [Fin Fid]. apply String.eqb_eq in Fid.
    exfalso. exact (H img Fin Fid).
  - destruct page as [a bb r al ti d g v]. reflexivity.
Qed.

Lemma remove_unknown_id_witness :
  let shown := {| StitchResult.blob := {| blob_type := "image/jpeg"; blob_bytes := [] |};
                  StitchResult.url := "blob:9";
                  StitchResult.width := 800;
                  StitchResult.height := 1000 |} in
  let page := with_app (loaded_page None)
                {| App.images := [Sample.A; Sample.B];
                   App.isProcessing := false;
                   App.result := Some shown |} in
  removeImage "nobody" page
  = (Returned tt,
     with_app page {| App.images := [Sample.A; Sample.B];
                      App.isProcessing := false;
                      App.result := None |}).
Proof.
  intros shown page. apply (remove_unknown_id page "nobody").
  simpl. intros img [<-|[<-|[]]]; discriminate.
Defined.

Lemma uploads_ids (host : Host) (files : list File) :
  forall r m, map UploadedImage.id (uploads host r m files)
              = map (random_id host) (seq r (List.length files)).
Proof.
  induction files as [|f rest IH]; intros r m; simpl; [reflexivity|].
  rewrite IH. reflexivity.
Qed.

Lemma uploads_sizes (host : Host) (files : list File) :
  forall r m, Forall (fun u => UploadedImage.width u = 0%float
                               /\ UploadedImage.height u = 0%float)
                (uploads host r m files).
Proof.
  induction files as [|f rest IH]; intros r m; simpl; constructor; [split; reflexivity|].
  apply IH.
Qed.

(** X14. [handleFilesSelected] appends one upload per file, in the order of
    the files, after the uploads already listed: its file is the file, its
    id the next value drawn from [Math.random], its preview the next object
    URL of the page, live from then on, and its width and height are 0.
    The result is cleared; nothing is revoked. *)
Theorem files_are_appended (host : Host) (files : list File) (page : Page) :
  exists added page',
    handleFilesSelected host files page = (Returned tt, page')
    /\ App.images (app page') = App.images (app page) ++ added
    /\ map UploadedImage.file added = files
    /\ map UploadedImage.id added
       = map (random_id host) (seq (randoms page) (List.length files))
    /\ map UploadedImage.previewUrl added
       = blob_urls (minted (browser page)) (List.length files)
    /\ Forall (fun u => UploadedImage.width u = 0%float /\ UploadedImage.height u = 0%float)
         added
    /\ App.result (app page') = None
    /\ url_events (trace (browser page'))
       = url_events (trace (browser page))
         ++ map CreateObjectURL (blob_urls (minted (browser page)) (List.length files))
    /\ (forall u, In u added ->
                  live (trace (browser page')) (UploadedImage.previewUrl u) = true).
Proof.
  exists (uploads host (randoms page) (minted (browser page)) files).
  eexists. split; [apply handleFilesSelected_exact|].
  cbn [app browser App.images App.result advance trace].
  split; [reflexivity|]. split; [apply uploads_files|]. split; [apply uploads_ids|].
  split; [apply uploads_previews|]. split; [apply uploads_sizes|]. split; [reflexivity|].
  split.
  - rewrite url_events_app. f_equal.
    generalize (blob_urls (minted (browser page)) (List.length files)).
    intros l. induction l as [|x rest IH]; simpl; [reflexivity|]. rewrite IH. reflexivity.
  - intros u Hin. unfold live. rewrite live_after_app, live_after_creates.
    apply orb_true_iff. right. apply existsb_eqb_In.
    rewrite <- (uploads_previews host files (randoms page)). apply in_map, Hin.
Qed.

Lemma handleFiles_exact (host : Host) (files : list File) (page : Page) :
  let validImages := filter (fun file => String.prefix "image/" (file_type file)) files in
  exists page',
    handleFiles (handleFilesSelected host) files page = (Returned tt, page')
    /\ map UploadedImage.file (App.images (app page'))
       = map UploadedImage.file (App.images (app page)) ++ validImages
    /\ alerts page'
       = alerts page ++ match validImages with
                        | [] => ["Please upload valid image files (JPG, PNG, WebP)."]
                        | _ :: _ => []
                        end
    /\ isDragging page' = isDragging page
    /\ inputValue page' = inputValue page.
Proof.
  intros validImages. unfold handleFiles. fold validImages.
  destruct validImages as [|v rest] eqn:E; cbn [List.length Nat.ltb Nat.leb].
  - eexists. split; [reflexivity|]. cbn [app alerts isDragging inputValue].
    rewrite app_nil_r. repeat split.
  - eexists. split; [apply handleFilesSelected_exact|].
    cbn [app alerts isDragging inputValue App.images].
    rewrite map_app, uploads_files, app_nil_r. repeat split.
Qed.

(** X15. Dropping files on the uploader, or choosing them in its file
    input, lists exactly those whose MIME type starts with "image/", in
    their order, after the uploads already listed; the other files are left
    out without a word.  Only when no file at all is an image, and there was
    at least one file, is the alert shown, and then the list does not
    change.  A drop ends the dragging state; a choice empties the input. *)
Theorem drop_keeps_image_files (host : Host) (files : list File) (page : Page) :
  let validImages := filter (fun file => String.prefix "image/" (file_type file)) files in
  let shown := match files, validImages with
               | _ :: _, [] => ["Please upload valid image files (JPG, PNG, WebP)."]
               | _, _ => []
               end in
  let dropped := act host page (Drop files) in
  let chosen := act host page (FileInput files) in
  map UploadedImage.file (App.images (app dropped))
  = map UploadedImage.file (App.images (app page)) ++ validImages
  /\ alerts dropped = alerts page ++ shown
  /\ isDragging dropped = false
  /\ map UploadedImage.file (App.images (app chosen))
     = map UploadedImage.file (App.images (app page)) ++ validImages
  /\ alerts chosen = alerts page ++ shown
  /\ inputValue chosen = "".
Proof.
  intros validImages shown dropped chosen.
  subst dropped chosen. unfold act. cbn [handler]. unfold handleDrop, handleFileInput.
  destruct files as [|f0 files0].
  { subst shown validImages. cbn. rewrite !app_nil_r. repeat split. }
  cbn [List.length Nat.ltb Nat.leb].
  unfold pbind, setIsDragging, setInputValue.
  destruct (handleFiles_exact host (f0 :: files0)
              {| app := app page; browser := browser page; randoms := randoms page;
                 alerts := alerts page; timers := timers page;
                 downloads := downloads page; isDragging := false;
                 inputValue := inputValue page |})
    as (p1 & -> & F1 & A1 & D1 & _).
  destruct (handleFiles_exact host (f0 :: files0) page) as (p2 & -> & F2 & A2 & _ & _).
  cbn [snd app alerts isDragging inputValue] in *.
  fold validImages in F1, A1, F2, A2. subst shown.
  destruct validImages; repeat split; assumption.
Qed.

(** X16. On a page in use, a confirmed [clearAll] empties the list and
    clears the result; every preview URL of the uploads that were listed is
    revoked, hence no longer live.  The URL of the result that was shown is
    not revoked: it stays live.  A declined [clearAll] changes nothing. *)
Theorem clear_all_revokes_previews (host : Host) (piexif : option Piexif)
    (actions : list Action) :
  let page := session host (loaded_page piexif) actions in
  let cleared := snd (clearAll true page) in
  App.images (app cleared) = []
  /\ App.result (app cleared) = None
  /\ (forall img, In img (App.images (app page)) ->
                  live (trace (browser cleared)) (UploadedImage.previewUrl img) = false)
  /\ (forall r, App.result (app page) = Some r ->
                live (trace (browser cleared)) (StitchResult.url r) = true)
  /\ clearAll false page = (Returned tt, page).
Proof.
  intros page cleared.
  pose proof (sound_session host actions _ (sound_loaded piexif)) as S. fold page in S.
  subst cleared. rewrite clearAll_exact.
  cbn [snd app browser App.images App.result with_app with_browser logged trace].
  split; [reflexivity|]. split; [reflexivity|]. split; [|split; [|reflexivity]].
  - intros img Hin. unfold live. rewrite live_after_app, live_after_revokes.
    assert (E : existsb (fun v => v =? UploadedImage.previewUrl img)
                  (map UploadedImage.previewUrl (App.images (app page))) = true).
    { apply existsb_eqb_In, in_map, Hin. }
    rewrite E. apply andb_false_r.
  - intros r E. destruct (sound_result page S r E) as [Hl Hn].
    apply live_extended; [exact Hl|]. intros H. apply in_map_iff in H.
    destruct H as (v & Ev & Hv). injection Ev as ->. exact (Hn Hv).
Qed.

(** X17. The callback of [handleStitch] never throws and always ends with
    [isProcessing] false.  When [stitchImages] returns, its result becomes
    the result shown and no alert appears; when it throws, the result shown
    before stays, the error goes to the console and one alert appears.  The
    list of uploads is not touched. *)
Theorem job_outcome (host : Host) (job : list UploadedImage.t) (page : Page) :
  exists page',
    stitchJob host job page = (Returned tt, page')
    /\ App.isProcessing (app page') = false
    /\ App.images (app page') = App.images (app page)
    /\ match stitchImages (host_env host) job (browser page) with
       | (Returned res, b) =>
           App.result (app page') = Some res
           /\ alerts page' = alerts page
           /\ browser page' = b
       | (Threw e, b) =>
           App.result (app page') = App.result (app page)
           /\ alerts page' = alerts page ++ ["Failed to stitch images. Please try again."]
           /\ browser page' = logged b [Console Err "" (Some e)]
       end.
Proof.
  rewrite stitchJob_exact.
  destruct (stitchImages (host_env host) job (browser page)) as [[res|e] b];
    eexists; (split; [reflexivity|]); repeat split.
Qed.

(** ** The page in use *)

(** X18. Whatever is done on the page, every upload listed has a file whose
    MIME type starts with "image/", and its [width] and [height] are 0: the
    component never fills them in. *)
Theorem listed_uploads_are_images (host : Host) (piexif : option Piexif)
    (actions : list Action) :
  Forall (fun u => String.prefix "image/" (file_type (UploadedImage.file u)) = true
                   /\ UploadedImage.width u = 0%float
                   /\ UploadedImage.height u = 0%float)
    (App.images (app (session host (loaded_page piexif) actions))).
Proof.
  exact (sound_images _ (sound_session host actions _ (sound_loaded piexif))).
Qed.

(** X19. Whatever is done on the page, no timer ever holds an empty list:
    [handleStitch] returns before it sets one.  So the job that fires calls
    [stitchImages] on at least one upload, and the call gets past its test
    for an empty input: it mints at least one object URL. *)
Theorem stitch_jobs_are_not_empty (host : Host) (piexif : option Piexif)
    (actions : list Action) :
  let page := session host (loaded_page piexif) actions in
  Forall (fun job => job <> []) (timers page)
  /\ forall job rest, timers page = job :: rest ->
       exists o st',
         stitchImages (host_env host) job (browser page) = (o, st')
         /\ (minted (browser page) < minted st')%nat.
Proof.
  intros page.
  pose proof (sound_timers _ (sound_session host actions _ (sound_loaded piexif))) as S.
  fold page in S. split.
  - apply Forall_forall. intros job Hin. apply (proj1 (Forall_forall _ _) S job Hin).
  - intros job rest E. rewrite E in S. inversion S as [|? ? [Hne _] _]; subst.
    destruct job as [|u others]; [contradiction|].
    destruct (stitchImages_resources (host_env host) (u :: others) (browser page))
      as (o & st' & events & R & _ & _ & Hm & _).
    exists o, st'. split; [exact R|].
    rewrite Hm. cbn [List.length]. destruct o; lia.
Qed.

(** X20. Whatever is done on the page, the preview URLs of the uploads
    listed are distinct and live, the URL of the result shown is live, and
    so is the target of every download link that was ever clicked: the
    handlers revoke a preview only when its upload leaves the list, and
    [stitchImages] revokes only the URLs that it minted for loading. *)
Theorem shown_urls_are_live (host : Host) (piexif : option Piexif)
    (actions : list Action) :
  let page := session host (loaded_page piexif) actions in
  NoDup (map UploadedImage.previewUrl (App.images (app page)))
  /\ (forall img, In img (App.images (app page)) ->
                  live (trace (browser page)) (UploadedImage.previewUrl img) = true)
  /\ (forall r, App.result (app page) = Some r ->
                live (trace (browser page)) (StitchResult.url r) = true)
  /\ (forall href download, In (href, download) (downloads page) ->
                live (trace (browser page)) href = true).
Proof.
  intros page.
  pose proof (sound_session host actions _ (sound_loaded piexif)) as S. fold page in S.
  split; [exact (sound_distinct page S)|]. split; [exact (sound_previews page S)|].
  split.
  - intros r E. exact (proj1 (sound_result page S r E)).
  - intros href download H. exact (proj1 (sound_downloads page S href download H)).
Qed.

(** The cleanup of the effect closed over the state of the first
    render, an empty list and no result: at whatever point the component is
    unmounted, the cleanup revokes nothing, and the preview URLs of the
    uploads listed and the URL of the result shown are all still live
    afterwards. *)
Lemma unmount_revokes_nothing (host : Host) (piexif : option Piexif)
    (actions : list Action) :
  let page := session host (loaded_page piexif) actions in
  let unmounted := snd (unmount page) in
  unmount page = (Returned tt, page)
  /\ (forall img, In img (App.images (app page)) ->
                  live (trace (browser unmounted)) (UploadedImage.previewUrl img) = true)
  /\ (forall r, App.result (app page) = Some r ->
                live (trace (browser unmounted)) (StitchResult.url r) = true).
Proof.
  intros page unmounted.
  pose proof (sound_session host actions _ (sound_loaded piexif)) as S. fold page in S.
  assert (E : unmount page = (Returned tt, page)) by reflexivity.
  subst unmounted. rewrite E. cbn [snd].
  split; [reflexivity|]. split; [exact (sound_previews page S)|].
  intros r Er. exact (proj1 (sound_result page S r Er)).
Qed.

Lemma timers_kept (host : Host) (page : Page) (a : Action) :
  a <> Stitch -> a <> TimerFires -> timers (act host page a) = timers page.
Proof.
  intros H1 H2. unfold act. destruct a; cbn [handler]; try contradiction; try reflexivity.
  - unfold handleDrop, pbind, setIsDragging.
    destruct (0 <? List.length files)%nat; [|reflexivity].
    unfold handleFiles.
    destruct (0 <? List.length (filter (fun file => String.prefix "image/" (file_type file))
                                 files))%nat;
      [rewrite handleFilesSelected_exact|]; reflexivity.
  - unfold handleFileInput, pbind, setInputValue.
    destruct (0 <? List.length files)%nat; [|reflexivity].
    unfold handleFiles.
    destruct (0 <? List.length (filter (fun file => String.prefix "image/" (file_type file))
                                 files))%nat;
      [rewrite handleFilesSelected_exact|]; reflexivity.
  - rewrite removeImage_exact. reflexivity.
  - destruct (clickArrow_exact page index direction)
      as [->|(l1 & x & y & l2 & _ & _ & ->)]; reflexivity.
  - unfold handleDownload, pbind, get_result. destruct (App.result (app page)); reflexivity.
  - destruct confirmed; [rewrite clearAll_exact|]; reflexivity.
Qed.

Lemma timers_kept_session (host : Host) (edits : list Action) :
  Forall (fun a => a <> Stitch /\ a <> TimerFires) edits ->
  forall page, timers (session host page edits) = timers page.
Proof.
  induction 1 as [|a rest [H1 H2] _ IH]; intros page; [reflexivity|].
  cbn [session fold_left]. fold (session host (act host page a) rest).
  rewrite IH. apply timers_kept; assumption.
Qed.

(** X21. The callback that [handleStitch] schedules stitches the list as
    it was when the button was clicked.  Whatever is added to, removed from
    or moved in the list before the timer fires, the timer still holds that
    list, and the result that is then shown is the one that [stitchImages]
    returns for it, not for the list on display. *)
Theorem job_stitches_the_list_at_click (host : Host) (page : Page) (edits : list Action) :
  timers page = [] ->
  App.images (app page) <> [] ->
  Forall (fun a => a <> Stitch /\ a <> TimerFires) edits ->
  let later := session host page (Stitch :: edits) in
  timers later = [App.images (app page)]
  /\ forall res b,
       stitchImages (host_env host) (App.images (app page)) (browser later) = (Returned res, b) ->
       App.result (app (act host later TimerFires)) = Some res.
Proof.
  intros T N E later.
  assert (Ht : timers later = [App.images (app page)]).
  { subst later. cbn [session fold_left]. fold (session host (act host page Stitch) edits).
    rewrite (timers_kept_session host edits E).
    unfold act. cbn [handler]. unfold handleStitch, pbind, get_images, setIsProcessing,
      setTimeout.
    destruct (App.images (app page)) as [|u rest]; [contradiction|].
    cbn [List.length Nat.eqb snd timers with_app]. rewrite T. reflexivity. }
  split; [exact Ht|].
  intros res b R. unfold act. cbn [handler]. unfold timerFires. rewrite Ht.
  rewrite stitchJob_exact. cbn [browser]. rewrite R. reflexivity.
Qed.

Lemma job_stitches_the_list_at_click_witness :
  let host := {| host_env := Sample.page; random_id := fun _ => "id" |} in
  let page := with_app (loaded_page None)
                {| App.images := [Sample.A; Sample.B];
                   App.isProcessing := false;
                   App.result := None |} in
  let later := session host page [Stitch; Remove "b"; Move 0 down] in
  App.images (app later) = [Sample.A]
  /\ timers later = [[Sample.A; Sample.B]]
  /\ forall res b,
       stitchImages Sample.page [Sample.A; Sample.B] (browser later) = (Returned res, b) ->
       App.result (app (act host later TimerFires)) = Some res.
Proof.
  intros host page later. split; [reflexivity|].
  apply (job_stitches_the_list_at_click host page [Remove "b"; Move 0 down]).
  - reflexivity.
  - discriminate.
  - repeat constructor; discriminate.
Defined.
